(** * A shallow embedding of libsinsp's containerd container engine
    (userspace/libsinsp/container_engine/containerd.cpp).

    The engine resolves the container owning a thread: it matches the
    thread's cgroups against the containerd layout, asks the containerd
    daemon (over gRPC) for the container descriptor, parses the image
    reference and the OCI runtime spec, attaches host cgroup limits, and
    hands the record to the container cache.

    Modelling choices:
    - C++ [std::string] is Rocq's [string]; [size_t] is [N] with its
      wrap-around modulo 2^64 written out, [std::string::npos] is 2^64 - 1.
    - Undefined behaviour (null dereference, out-of-range [operator[]])
      and uncaught exceptions (std::out_of_range, Json::LogicError) are
      the [Crash] outcome of the [M] monad.
    - The collaborators that are not in this file (the gRPC daemon, the
      host file system, the cgroup matcher, the cgroup-limit reader,
      JsonCpp's reader) are the fields of a [host] record, so that every
      theorem holds for every behaviour of them. *)

From stdpp Require Import base gmap strings list pretty.
From Stdlib Require Import String Ascii ZArith NArith Lia.

Open Scope string_scope.
Set Warnings "-register-all".

(** ** C++ string primitives *)

Definition npos : N := (2 ^ 64 - 1)%N.

(** [size_t] addition. *)
Definition size_add (a b : N) : N := ((a + b) mod 2 ^ 64)%N.

(** Last position [i] at which [pat] occurs in [s] (counting from [i0]). *)
Fixpoint rfind_from (s pat : string) (i0 : nat) : option nat :=
  match s with
  | EmptyString => if String.prefix pat EmptyString then Some i0 else None
  | String c rest =>
      match rfind_from rest pat (S i0) with
      | Some j => Some j
      | None => if String.prefix pat s then Some i0 else None
      end
  end.

(** [s.rfind(pat)]: the last occurrence, or [npos]. *)
Definition rfind (s pat : string) : N :=
  match rfind_from s pat 0 with
  | Some i => N.of_nat i
  | None => npos
  end.

(** [s.substr(pos, count)]: throws [std::out_of_range] ([None]) when
    [pos > size()], otherwise at most [count] characters from [pos]. *)
Definition substr (s : string) (pos count : N) : option string :=
  if (pos <=? N.of_nat (String.length s))%N
  then Some (String.substring (N.to_nat pos)
               (N.to_nat (N.min count (N.of_nat (String.length s) - pos))) s)
  else None.

(** Does [c] occur in [s]? *)
Fixpoint has_char (c : ascii) (s : string) : bool :=
  match s with
  | EmptyString => false
  | String d rest => if ascii_dec c d then true else has_char c rest
  end.

(** Does [x] occur in [s] as a contiguous substring? *)
Fixpoint contains (x s : string) : bool :=
  String.prefix x s ||
  match s with
  | EmptyString => false
  | String _ rest => contains x rest
  end.

(** Modelled from the spec: [sinsp_split] (libsinsp's string utilities,
    not in this file's source): "Split the descriptor's image reference on
    `:`". Every occurrence of the delimiter ends a field; the fields are
    returned in order. *)
Fixpoint sinsp_split (s : string) (delim : ascii) : list string :=
  match s with
  | EmptyString => [EmptyString]
  | String c rest =>
      let fields := sinsp_split rest delim in
      if ascii_dec c delim then EmptyString :: fields
      else match fields with
           | f :: fs => String c f :: fs
           | [] => [String c EmptyString]
           end
  end.

(** [std::vector::operator[]]: out of range is undefined behaviour. *)
Definition vec_at {A} (v : list A) (i : nat) : option A := v !! i.

(** ** JsonCpp values

    A [Json::Value] as JsonCpp represents it (real numbers left out).
    Object members are kept in the order JsonCpp iterates them (its
    [std::map], i.e. by key). *)
Inductive json : Type :=
| JNull
| JBool (b : bool)
| JInt (z : Z)
| JString (s : string)
| JArray (l : list json)
| JObject (members : list (string * json)).

Fixpoint assoc (key : string) (ms : list (string * json)) : option json :=
  match ms with
  | [] => None
  | (k, v) :: rest => if String.eqb k key then Some v else assoc key rest
  end.

(** [v[key]]: a null value reads as an empty object, an object yields the
    member or null, any other type throws [Json::LogicError] ([None]). *)
Definition jindex (v : json) (key : string) : option json :=
  match v with
  | JNull => Some JNull
  | JObject ms => Some (match assoc key ms with Some x => x | None => JNull end)
  | _ => None
  end.

(** Range-for over a value: arrays and objects yield their elements,
    every other value is empty ([begin() == end()]). *)
Definition jelems (v : json) : list json :=
  match v with
  | JArray l => l
  | JObject ms => map snd ms
  | _ => []
  end.

(** [v.asString()]: arrays and objects throw. *)
Definition asString (v : json) : option string :=
  match v with
  | JNull => Some ""
  | JBool b => Some (if b then "true" else "false")
  | JInt z => Some (pretty z)
  | JString s => Some s
  | JArray _ | JObject _ => None
  end.

(** ** Data model *)

Inductive sinsp_container_type :=
| CT_UNKNOWN | CT_DOCKER | CT_CRI | CT_CONTAINERD.

Inductive lookup_state := STARTED | SUCCESSFUL | FAILED.

(** [sinsp_container_info::container_mount_info]. *)
Record container_mount_info := mk_mount {
  m_source : string;
  m_dest : string;
  m_mode : string;
  m_rdwr : bool;
  m_propagation : string
}.

(** [sinsp_container_info], restricted to the fields this engine touches. *)
Record container_info := mk_container {
  m_id : string;
  m_full_id : string;
  m_name : string;
  m_image : string;
  m_imagerepo : string;
  m_imagetag : string;
  m_imagedigest : string;
  m_type : sinsp_container_type;
  m_labels : gmap string string;
  m_mounts : list container_mount_info;
  m_env : list string;
  m_memory_limit : Z;
  m_cpu_shares : Z;
  m_cpu_quota : Z;
  m_cpu_period : Z;
  m_cpuset_cpu_count : Z;
  m_lookup : lookup_state
}.

(** A default-constructed [sinsp_container_info()]. *)
Definition sinsp_container_info_default : container_info :=
  {| m_id := ""; m_full_id := ""; m_name := ""; m_image := "";
     m_imagerepo := ""; m_imagetag := ""; m_imagedigest := "";
     m_type := CT_UNKNOWN; m_labels := ∅; m_mounts := []; m_env := [];
     m_memory_limit := 0; m_cpu_shares := 1024; m_cpu_quota := 0;
     m_cpu_period := 100000; m_cpuset_cpu_count := 0;
     m_lookup := STARTED |}.

(** [containerd.services.containers.v1.Container], the descriptor the
    daemon returns; [d_spec] is the raw JSON of [spec().value()]. *)
Record container_desc := mk_desc {
  d_id : string;
  d_image : string;
  d_labels : list (string * string);
  d_spec : string
}.

Record grpc_status := mk_status { st_ok : bool; st_msg : string }.

(** The part of [sinsp_threadinfo] the engine reads and writes. *)
Record threadinfo := mk_tinfo {
  m_tid : Z;
  m_container_id : string;
  m_cgroups : list (string * string)
}.

(** A [cgroup_layout] entry: (prefix, suffix). *)
Definition cgroup_layout : Type := (string * string)%type.

Record cgroup_limits_key := mk_key {
  k_container_id : string;
  k_cpu_cgroup : string;
  k_mem_cgroup : string;
  k_cpuset_cgroup : string
}.

Record cgroup_limits_value := mk_limits {
  l_memory_limit : Z;
  l_cpu_shares : Z;
  l_cpu_quota : Z;
  l_cpu_period : Z;
  l_cpuset_cpu_count : Z
}.

(** What [stat(2)] reports in [st_mode & S_IFMT]. *)
Inductive file_type := S_IFSOCK | S_IFREG | S_IFDIR | S_IFLNK | S_IFOTHER.

(** The collaborators of the engine that live outside this source file. *)
Record host := mk_host {
  h_host_root : string;                      (* scap_get_host_root() *)
  h_stat : string -> option file_type;       (* stat(); None when it fails *)
  h_daemon : string -> list string -> grpc_status * list container_desc;
    (* the containerd List RPC at a socket path, given the request filters *)
  h_match : list (string * string) -> list cgroup_layout -> option (string * string);
    (* matches_runc_cgroups: truncated container id and matched cgroup *)
  h_limits : cgroup_limits_key -> cgroup_limits_value;
    (* get_cgroup_resource_limits *)
  h_json_parse : string -> json;
    (* the value Json::Reader::parse leaves in its output *)
  h_label_max_length : nat
    (* sinsp_container_info::m_container_label_max_length *)
}.

(** Observable effects, in the order they happen. *)
Inductive event :=
| EvList (socket : string) (filters : list string)
| EvLimits (key : cgroup_limits_key)
| EvAdd (c : container_info) (tid : Z)
| EvNotify (c : container_info) (tid : Z).

(** The state [resolve] reads and writes: the thread, the container
    cache and the trace of effects. *)
Record world := mk_world {
  w_tinfo : threadinfo;
  w_cache : gmap string container_info;
  w_trace : list event
}.

(** ** The engine's monad: state, plus crash for undefined behaviour and
    uncaught exceptions. *)

Inductive outcome (A : Type) := Done (a : A) | Crash (why : string).
Arguments Done {A} a.
Arguments Crash {A} why.

Definition M (A : Type) : Type := world -> outcome (A * world).

Global Instance M_ret : MRet M := fun A a w => Done (a, w).
Global Instance M_bind : MBind M := fun A B f m w =>
  match m w with
  | Done (a, w') => f a w'
  | Crash e => Crash e
  end.

Definition crash {A} (why : string) : M A := fun _ => Crash why.

Definition lift {A} (o : option A) (why : string) : M A :=
  match o with Some a => mret a | None => crash why end.

Definition emit (e : event) : M unit := fun w =>
  Done (tt, mk_world (w_tinfo w) (w_cache w) (w_trace w ++ [e])).

Definition get_tinfo : M threadinfo := fun w => Done (w_tinfo w, w).

Definition set_container_id (cid : string) : M unit := fun w =>
  let t := w_tinfo w in
  Done (tt, mk_world (mk_tinfo (m_tid t) cid (m_cgroups t)) (w_cache w) (w_trace w)).

(** ** Collaborators modelled from the spec *)

(** Modelled from the spec: [sinsp_threadinfo::get_cgroup] (not in this
    source), "per-controller cgroup paths for the process": the path the
    thread records for the controller, ["/"] when it records none. *)
Definition get_cgroup (t : threadinfo) (subsys : string) : string :=
  match find (fun p => String.eqb p.1 subsys) (m_cgroups t) with
  | Some p => p.2
  | None => "/"
  end.

(** Modelled from the spec: the container cache's [should_lookup] (not in
    this source), "If the cache indicates this identity has not yet been
    resolved": true when no record is stored under the id. *)
Definition should_lookup (id : string) (ctype : sinsp_container_type) : M bool :=
  fun w => Done (match w_cache w !! id with Some _ => false | None => true end, w).

(** Modelled from the spec: the container cache's [add_container] (not in
    this source), "publish to the cache": the record is stored under its id. *)
Definition add_container (c : container_info) (t : threadinfo) : M unit :=
  fun w => Done (tt, mk_world (w_tinfo w) (<[m_id c := c]> (w_cache w))
                              (w_trace w ++ [EvAdd c (m_tid t)])).

(** Modelled from the spec: [notify_new_container] (not in this source),
    "notify observers". *)
Definition notify_new_container (c : container_info) (t : threadinfo) : M unit :=
  emit (EvNotify c (m_tid t)).

(** ** containerd_interface *)

Record containerd_interface := mk_iface {
  ci_socket : string;
  ci_stub : bool     (* m_stub != nullptr *)
}.

Definition is_ok (i : containerd_interface) : bool := ci_stub i.

(** [containerd_interface(socket_path)]: a stub on the socket, kept only
    when an unfiltered List call in the "default" namespace succeeds. *)
Definition containerd_interface_new (h : host) (socket_path : string) : containerd_interface :=
  let '(status, _) := h_daemon h socket_path [] in
  mk_iface socket_path (st_ok status).

(** [list_container_resp]: List with the filter ["id~=" + container_id]. *)
Definition list_container_resp (h : host) (i : containerd_interface) (container_id : string)
  : M (grpc_status * list container_desc) :=
  if ci_stub i then
    let filters := ["id~=" ++ container_id] in
    emit (EvList (ci_socket i) filters) ;;
    mret (h_daemon h (ci_socket i) filters)
  else crash "null m_stub dereference".

(** ** containerd (the engine) *)

Definition CONTAINERD_CGROUP_LAYOUT : list cgroup_layout := [("/default/", "")].

Definition CONTAINERD_SOCKETS : list string :=
  ["/run/host-containerd/containerd.sock";
   "/run/containerd/runtime2/containerd.sock"].

(** One iteration of the constructor's loop over [CONTAINERD_SOCKETS],
    on the current value of [m_interface]. *)
Definition containerd_ctor_step (h : host) (m_interface : option containerd_interface)
  (p : string) : option containerd_interface :=
  if String.eqb p "" then m_interface
  else
    let socket_path := h_host_root h ++ p in
    match h_stat h socket_path with
    | Some S_IFSOCK =>
        let i := containerd_interface_new h socket_path in
        if is_ok i then Some i else None
    | _ => m_interface
    end.

(** [containerd::containerd(cache)]: the resulting [m_interface]. *)
Definition containerd_ctor (h : host) : option containerd_interface :=
  fold_left (containerd_ctor_step h) CONTAINERD_SOCKETS None.

(** ** The runtime spec (the [spec] JSON of the descriptor) *)

(** The inner loop over [m["options"]]: [readonly] and [mode]. *)
Fixpoint scan_options (opts : list json) (readonly : bool) (mode : string)
  : option (bool * string) :=
  match opts with
  | [] => Some (readonly, mode)
  | jopt :: rest =>
      opt ← asString jopt;
      if String.eqb opt "ro" then scan_options rest true mode
      else if (rfind opt "mode=" =? 0)%N then
        mode' ← substr opt 5 npos; scan_options rest readonly mode'
      else scan_options rest readonly mode
  end.

(** One [m_mounts.emplace_back(...)] for the mount entry [m]. *)
Definition mount_of_entry (spec m : json) : option container_mount_info :=
  opts ← jindex m "options";
  '(readonly, mode) ← scan_options (jelems opts) false "";
  src ← jindex m "source" ≫= asString;
  dst ← jindex m "destination" ≫= asString;
  linux ← jindex spec "linux";
  prop ← jindex linux "rootfsPropagation" ≫= asString;
  Some (mk_mount src dst mode (negb readonly) prop).

(** "Retrieve the mounts.": the mounts appended, in order. *)
Definition parse_mounts (spec : json) : option (list container_mount_info) :=
  ms ← jindex spec "mounts";
  mapM (mount_of_entry spec) (jelems ms).

(** "Retrieve the env.": the env strings appended, in order. *)
Definition parse_env (spec : json) : option (list string) :=
  p ← jindex spec "process";
  e ← jindex p "env";
  mapM asString (jelems e).

(** The labels loop: values longer than the maximum are dropped. *)
Definition copy_labels (max_len : nat) (labels : list (string * string))
  (acc : gmap string string) : gmap string string :=
  fold_left (fun m kv => if (String.length kv.2 <=? max_len)%nat then <[kv.1 := kv.2]> m else m)
    labels acc.

(** The fields the image reference yields: (image, repo, tag). *)
Definition parse_image (image_ref : string) : option (string * string * string) :=
  let raw_image_splits := sinsp_split image_ref ":" in
  s0 ← vec_at raw_image_splits 0;
  image ← substr s0 (size_add (rfind s0 "/") 1) npos;
  repo ← substr s0 0 (rfind s0 "/");
  tag ← vec_at raw_image_splits 1;
  Some (image, repo, tag).

(** [containerd::parse_containerd(container, container_id)]: the returned
    boolean and the updated [container]. *)
Definition parse_containerd (h : host) (m_interface : option containerd_interface)
  (container : container_info) (container_id : string) : M (bool * container_info) :=
  i ← lift m_interface "null m_interface dereference";
  '(status, containers) ← list_container_resp h i container_id;
  if negb (st_ok status) then mret (false, container) else
  match containers with
  | [] => mret (false, container)
  | _ :: _ :: _ => mret (false, container)
  | [d] =>
      '(image, repo, tag) ← lift (parse_image (d_image d))
                                  "raw_image_splits out of range";
      let labels := copy_labels (h_label_max_length h) (d_labels d) (m_labels container) in
      let spec := h_json_parse h (d_spec d) in
      mounts ← lift (parse_mounts spec) "Json::LogicError";
      env ← lift (parse_env spec) "Json::LogicError";
      mret (true,
        {| m_id := container_id; m_full_id := d_id d; m_name := m_name container;
           m_image := image; m_imagerepo := repo; m_imagetag := tag;
           m_imagedigest := ""; m_type := CT_CONTAINERD; m_labels := labels;
           m_mounts := m_mounts container ++ mounts; m_env := m_env container ++ env;
           m_memory_limit := m_memory_limit container;
           m_cpu_shares := m_cpu_shares container;
           m_cpu_quota := m_cpu_quota container;
           m_cpu_period := m_cpu_period container;
           m_cpuset_cpu_count := m_cpuset_cpu_count container;
           m_lookup := m_lookup container |})
  end.

Definition with_limits (c : container_info) (l : cgroup_limits_value) : container_info :=
  {| m_id := m_id c; m_full_id := m_full_id c; m_name := m_name c;
     m_image := m_image c; m_imagerepo := m_imagerepo c; m_imagetag := m_imagetag c;
     m_imagedigest := m_imagedigest c; m_type := m_type c; m_labels := m_labels c;
     m_mounts := m_mounts c; m_env := m_env c;
     m_memory_limit := l_memory_limit l; m_cpu_shares := l_cpu_shares l;
     m_cpu_quota := l_cpu_quota l; m_cpu_period := l_cpu_period l;
     m_cpuset_cpu_count := l_cpuset_cpu_count l; m_lookup := m_lookup c |}.

(** [container.m_name = container.m_id;
     container.set_lookup_status(SUCCESSFUL);] *)
Definition mark_successful (c : container_info) : container_info :=
  {| m_id := m_id c; m_full_id := m_full_id c; m_name := m_id c;
     m_image := m_image c; m_imagerepo := m_imagerepo c; m_imagetag := m_imagetag c;
     m_imagedigest := m_imagedigest c; m_type := m_type c; m_labels := m_labels c;
     m_mounts := m_mounts c; m_env := m_env c;
     m_memory_limit := m_memory_limit c; m_cpu_shares := m_cpu_shares c;
     m_cpu_quota := m_cpu_quota c; m_cpu_period := m_cpu_period c;
     m_cpuset_cpu_count := m_cpuset_cpu_count c; m_lookup := SUCCESSFUL |}.

Definition limits_key (c : container_info) (t : threadinfo) : cgroup_limits_key :=
  mk_key (m_id c) (get_cgroup t "cpu") (get_cgroup t "memory") (get_cgroup t "cpuset").

(** [containerd::resolve(tinfo, query_os_for_missing_info)]. *)
Definition resolve (h : host) (m_interface : option containerd_interface)
  (query_os_for_missing_info : bool) : M bool :=
  let container := sinsp_container_info_default in
  tinfo ← get_tinfo;
  match h_match h (m_cgroups tinfo) CONTAINERD_CGROUP_LAYOUT with
  | None => mret false
  | Some (container_id, cgroup) =>
      '(ok, container) ← parse_containerd h m_interface container container_id;
      if negb ok then mret false else
      set_container_id container_id ;;
      tinfo ← get_tinfo;
      let key := limits_key container tinfo in
      emit (EvLimits key) ;;
      let container := with_limits container (h_limits h key) in
      should_lookup (m_id container) CT_CONTAINERD ≫= (fun sl : bool =>
      (if sl then
         let container := mark_successful container in
         add_container container tinfo ;;
         notify_new_container container tinfo
       else mret tt) ;;
      mret true)
  end.

(** ** Sample collaborators, used to run the engine on concrete inputs *)

(** Modelled from the spec: [matches_runc_cgroups] (libsinsp's runc.cpp,
    not in this source), "given a process's cgroup paths and a layout
    table, extracts a truncated container identifier and the matched cgroup
    path, or signals no-match": the first cgroup path holding a layout
    prefix, the identifier being the text after its last occurrence up to
    the suffix, truncated to 12 characters. *)
Definition match_one (path : string) (l : cgroup_layout) : option string :=
  let '(prefix, suffix) := l in
  match rfind_from path prefix 0 with
  | None => None
  | Some start =>
      let rest := String.substring (start + String.length prefix) (String.length path) path in
      let n := String.length rest - String.length suffix in
      if String.eqb (String.substring n (String.length suffix) rest) suffix
         && negb (Nat.eqb n 0)
      then Some (String.substring 0 12 (String.substring 0 n rest))
      else None
  end.

Fixpoint runc_match (cgroups : list (string * string)) (layout : list cgroup_layout)
  : option (string * string) :=
  match cgroups with
  | [] => None
  | (_, path) :: rest =>
      match find (fun l => if match_one path l then true else false) layout with
      | Some l => match match_one path l with
                  | Some id => Some (id, path)
                  | None => runc_match rest layout
                  end
      | None => runc_match rest layout
      end
  end.

Definition status_ok : grpc_status := mk_status true "".

(** A daemon holding the descriptors [ds] that honours the [id~=] filter
    as substring containment. *)
Definition filtering_daemon (ds : list container_desc) (socket : string) (filters : list string)
  : grpc_status * list container_desc :=
  (status_ok,
   List.filter (fun d => forallb (fun f =>
             match f with
             | String "i" (String "d" (String "~" (String "=" x))) => contains x (d_id d)
             | _ => true
             end) filters) ds).

Definition sample_host (ds : list container_desc) : host :=
  {| h_host_root := "";
     h_stat := fun p => if String.eqb p "/run/host-containerd/containerd.sock" then Some S_IFSOCK
                        else if String.eqb p "/run/containerd/runtime2/containerd.sock" then Some S_IFSOCK
                        else None;
     h_daemon := filtering_daemon ds;
     h_match := runc_match;
     h_limits := fun _ => mk_limits 536870912 512 50000 100000 2;
     h_json_parse := fun _ => JObject [];
     h_label_max_length := 100 |}.

Definition sample_tinfo : threadinfo :=
  mk_tinfo 42 "" [("cpu", "/default/0123456789abcdef0123"); ("memory", "/default/0123456789abcdef0123")].

Definition sample_world : world := mk_world sample_tinfo ∅ [].

Definition sample_iface : containerd_interface :=
  mk_iface "/run/host-containerd/containerd.sock" true.

Definition ubuntu_desc : container_desc :=
  mk_desc "0123456789abcdef0123" "docker.io/library/ubuntu:22.04" [("a", "b")] "{}".

(** The record a [parse_containerd] run produced, if any. *)
Definition produced_record (o : outcome ((bool * container_info) * world)) : option container_info :=
  match o with
  | Done ((true, c), _) => Some c
  | _ => None
  end.

(** The text before the first occurrence of [c] (all of [s] without one). *)
Fixpoint take_until (c : ascii) (s : string) : string :=
  match s with
  | EmptyString => EmptyString
  | String d rest => if ascii_dec d c then EmptyString else String d (take_until c rest)
  end.



(** The resource limits a record carries. *)
Definition limits_of (c : container_info) : cgroup_limits_value :=
  mk_limits (m_memory_limit c) (m_cpu_shares c) (m_cpu_quota c) (m_cpu_period c)
    (m_cpuset_cpu_count c).

Definition set_stat (h : host) (st : string -> option file_type) : host :=
  mk_host (h_host_root h) st (h_daemon h) (h_match h) (h_limits h) (h_json_parse h)
    (h_label_max_length h).

Definition set_daemon (h : host) (d : string -> list string -> grpc_status * list container_desc)
  : host :=
  mk_host (h_host_root h) (h_stat h) d (h_match h) (h_limits h) (h_json_parse h)
    (h_label_max_length h).

(** A daemon whose List calls all fail. *)
Definition failing_daemon (socket : string) (filters : list string)
  : grpc_status * list container_desc :=
  (mk_status false "context deadline exceeded", []).

(** Both candidate sockets exist, but only the first one answers. *)
Definition second_socket_down (ds : list container_desc) (socket : string) (filters : list string)
  : grpc_status * list container_desc :=
  if String.eqb socket "/run/containerd/runtime2/containerd.sock"
  then (mk_status false "connection refused", [])
  else filtering_daemon ds socket filters.

(** No candidate socket exists on the host. *)
Definition no_socket_host : host := set_stat (sample_host []) (fun _ => None).

(** A descriptor whose image reference has no [/]. *)
Definition short_image_desc : container_desc :=
  mk_desc "0123456789abcdef0123" "ubuntu:22.04" [] "{}".

(** A descriptor whose id contains the truncated id, but not at its start. *)
Definition shifted_id_desc : container_desc :=
  mk_desc "f0123456789abcdef0123" "docker.io/library/ubuntu:22.04" [] "{}".

(** A runtime spec with one mount whose mode value itself holds [mode=]. *)
Definition mode_in_mode_spec : json :=
  JObject [("linux", JObject [("rootfsPropagation", JString "rprivate")]);
           ("mounts", JArray [JObject [("destination", JString "/mnt");
                                       ("options", JArray [JString "mode=0mode=1"]);
                                       ("source", JString "/host")]])].

(** Replace the JSON reader. *)
Definition set_json_parse (h : host) (p : string -> json) : host :=
  mk_host (h_host_root h) (h_stat h) (h_daemon h) (h_match h) (h_limits h) p
    (h_label_max_length h).

(** A thread outside any container: its cgroups hold no ["/default/"]. *)
Definition host_tinfo : threadinfo :=
  mk_tinfo 7 "" [("cpu", "/user.slice/user-1000.slice"); ("memory", "/user.slice")].

Definition host_world : world := mk_world host_tinfo ∅ [].

(** A descriptor whose image reference has no tag (no [:]). *)
Definition untagged_desc : container_desc :=
  mk_desc "0123456789abcdef0123" "docker.io/library/ubuntu" [] "{}".

(** Labels with one value longer than 20 characters. *)
Definition labelled_labels : list (string * string) :=
  [("app", "web"); ("commit", "0123456789abcdef0123456789abcdef0123456789")].

(** Only the first candidate socket exists. *)
Definition first_socket_only_host : host :=
  set_stat (sample_host [ubuntu_desc])
    (fun p => if String.eqb p "/run/host-containerd/containerd.sock" then Some S_IFSOCK else None).

(** A record that already holds a name, a label and an env entry. *)
Definition annotated_record : container_info :=
  mk_container "" "" "web" "" "" "" "" CT_UNKNOWN (<["a" := "old"]> ∅) [] ["PATH=/bin"]
    0 1024 0 100000 0 STARTED.

(** A mount's [options] array. *)
Definition mount_options_sample : list string := ["rbind"; "ro"; "mode=755"].

(** A JSON reader that yields an array for every spec. *)
Definition array_spec_host : host := set_json_parse (sample_host [ubuntu_desc]) (fun _ => JArray []).

(** * Properties *)

(** ** The monad and the parse step *)

Ltac unfold_M :=
  unfold mbind, M_bind, mret, M_ret, lift, crash, emit, get_tinfo, set_container_id,
    should_lookup, add_container, notify_new_container in *.


Lemma parse_containerd_done h i c cid w b c' w' :
  parse_containerd h (Some i) c cid w = Done ((b, c'), w') ->
  w' = mk_world (w_tinfo w) (w_cache w) (w_trace w ++ [EvList (ci_socket i) ["id~=" ++ cid]]) /\
  (b = false -> c' = c) /\
  (b = true -> exists st d,
      h_daemon h (ci_socket i) ["id~=" ++ cid] = (st, [d]) /\ st_ok st = true /\
      m_id c' = cid /\ m_full_id c' = d_id d /\
      parse_image (d_image d) = Some (m_image c', m_imagerepo c', m_imagetag c')).
Proof.
  unfold parse_containerd, list_container_resp. unfold_M. cbn.
  destruct (ci_stub i); cbn; [|discriminate].
  destruct (h_daemon h (ci_socket i) ["id~=" ++ cid]) as [st ds] eqn:Hd.
  destruct (st_ok st) eqn:Hst; cbn.
  - destruct ds as [|d [|d' ds]]; cbn.
    + intros H; injection H as <- <- <-. repeat split; congruence.
    + destruct (parse_image (d_image d)) as [[[im re] tg]|] eqn:Hi; cbn; [|discriminate].
      destruct (parse_mounts _); cbn; [|discriminate].
      destruct (parse_env _); cbn; [|discriminate].
      intros H; injection H as <- <- <-. repeat split; [discriminate|].
      intros _. exists st, d. auto.
    + intros H; injection H as <- <- <-. repeat split; congruence.
  - intros H; injection H as <- <- <-. repeat split; congruence.
Qed.

Lemma parse_containerd_true h i c cid w c' w' :
  parse_containerd h (Some i) c cid w = Done ((true, c'), w') ->
  exists st d image repo tag mounts env,
    h_daemon h (ci_socket i) ["id~=" ++ cid] = (st, [d]) /\ st_ok st = true /\
    parse_image (d_image d) = Some (image, repo, tag) /\
    parse_mounts (h_json_parse h (d_spec d)) = Some mounts /\
    parse_env (h_json_parse h (d_spec d)) = Some env /\
    c' = {| m_id := cid; m_full_id := d_id d; m_name := m_name c;
            m_image := image; m_imagerepo := repo; m_imagetag := tag;
            m_imagedigest := ""; m_type := CT_CONTAINERD;
            m_labels := copy_labels (h_label_max_length h) (d_labels d) (m_labels c);
            m_mounts := m_mounts c ++ mounts; m_env := m_env c ++ env;
            m_memory_limit := m_memory_limit c; m_cpu_shares := m_cpu_shares c;
            m_cpu_quota := m_cpu_quota c; m_cpu_period := m_cpu_period c;
            m_cpuset_cpu_count := m_cpuset_cpu_count c; m_lookup := m_lookup c |}.
Proof.
  unfold parse_containerd, list_container_resp. unfold_M. cbn.
  destruct (ci_stub i); cbn; [|discriminate].
  destruct (h_daemon h (ci_socket i) ["id~=" ++ cid]) as [st ds] eqn:Hd.
  destruct (st_ok st) eqn:Hst; cbn; [|discriminate].
  destruct ds as [|d [|d' ds]]; cbn; try discriminate.
  destruct (parse_image (d_image d)) as [[[im re] tg]|] eqn:Hi; cbn; [|discriminate].
  destruct (parse_mounts _) as [ms|] eqn:Hms; cbn; [|discriminate].
  destruct (parse_env _) as [es|] eqn:Hes; cbn; [|discriminate].
  intros H; injection H as <- _. exists st, d, im, re, tg, ms, es. repeat split; auto.
Qed.

Lemma resolve_done h i q w b w' :
  resolve h (Some i) q w = Done (b, w') ->
  (h_match h (m_cgroups (w_tinfo w)) CONTAINERD_CGROUP_LAYOUT = None /\ b = false /\ w' = w)
  \/ (exists cid cg c, h_match h (m_cgroups (w_tinfo w)) CONTAINERD_CGROUP_LAYOUT = Some (cid, cg) /\
        parse_containerd h (Some i) sinsp_container_info_default cid w = Done ((false, c), w') /\ b = false)
  \/ (exists cid cg c w1, h_match h (m_cgroups (w_tinfo w)) CONTAINERD_CGROUP_LAYOUT = Some (cid, cg) /\
        parse_containerd h (Some i) sinsp_container_info_default cid w = Done ((true, c), w1) /\ b = true /\
        let t' := mk_tinfo (m_tid (w_tinfo w1)) cid (m_cgroups (w_tinfo w1)) in
        let key := limits_key c (w_tinfo w1) in
        let c2 := with_limits c (h_limits h key) in
        w' = match w_cache w1 !! m_id c with
             | None => mk_world t' (<[m_id c := mark_successful c2]> (w_cache w1))
                         (w_trace w1 ++ [EvLimits key; EvAdd (mark_successful c2) (m_tid t');
                                         EvNotify (mark_successful c2) (m_tid t')])
             | Some _ => mk_world t' (w_cache w1) (w_trace w1 ++ [EvLimits key])
             end).
Proof.
  unfold resolve. unfold_M. cbn -[parse_containerd].
  destruct (h_match h (m_cgroups (w_tinfo w)) CONTAINERD_CGROUP_LAYOUT) as [[cid cg]|] eqn:Hm; cbn -[parse_containerd].
  - destruct (parse_containerd h (Some i) sinsp_container_info_default cid w) as [[[ok c] w1]|e] eqn:Hp; cbn -[parse_containerd];
      [|discriminate].
    destruct ok; cbn.
    + destruct (w_cache w1 !! m_id c) eqn:Hc; cbn;
      intros H; injection H as <- <-; right; right; exists cid, cg, c, w1;
      repeat split; auto; rewrite Hc; cbn; rewrite <- ?app_assoc; reflexivity.
    + intros H; injection H as <- <-. right; left. exists cid, cg, c. auto.
  - intros H; injection H as <- <-. left. auto.
Qed.









(** ** Early returns *)

Lemma parse_containerd_not_single h i c cid w st ds :
  is_ok i = true ->
  h_daemon h (ci_socket i) ["id~=" ++ cid] = (st, ds) ->
  st_ok st = true -> List.length ds <> 1 ->
  parse_containerd h (Some i) c cid w =
    Done ((false, c), mk_world (w_tinfo w) (w_cache w)
                        (w_trace w ++ [EvList (ci_socket i) ["id~=" ++ cid]])).
Proof.
  unfold is_ok. intros Hok Hd Hst Hlen.
  unfold parse_containerd, list_container_resp. unfold_M. cbn.
  rewrite Hok. cbn. rewrite Hd. cbn. rewrite Hst. cbn.
  destruct ds as [|d [|d' ds]]; cbn in *; [reflexivity|lia|reflexivity].
Qed.

(** C8: when the daemon answers the filtered List call successfully with
    zero or with several descriptors, [parse_containerd] returns false and
    leaves the record as it was, and [resolve] returns false without
    touching the thread or the cache: only the List call happened. *)
Theorem resolve_no_single_descriptor h i q w cid cg st ds :
  is_ok i = true ->
  h_match h (m_cgroups (w_tinfo w)) CONTAINERD_CGROUP_LAYOUT = Some (cid, cg) ->
  h_daemon h (ci_socket i) ["id~=" ++ cid] = (st, ds) ->
  st_ok st = true -> List.length ds <> 1 ->
  let w1 := mk_world (w_tinfo w) (w_cache w)
              (w_trace w ++ [EvList (ci_socket i) ["id~=" ++ cid]]) in
  parse_containerd h (Some i) sinsp_container_info_default cid w
    = Done ((false, sinsp_container_info_default), w1) /\
  resolve h (Some i) q w = Done (false, w1).
Proof.
  intros Hok Hm Hd Hst Hlen w1.
  pose proof (parse_containerd_not_single h i sinsp_container_info_default cid w st ds Hok Hd Hst Hlen) as Hp.
  split; [exact Hp|].
  unfold resolve. unfold_M. cbn -[parse_containerd].
  rewrite Hm. cbn -[parse_containerd]. rewrite Hp. reflexivity.
Qed.

Lemma resolve_no_single_descriptor_witness :
  List.length [ubuntu_desc; shifted_id_desc] <> 1 /\
  resolve (sample_host [ubuntu_desc; shifted_id_desc]) (Some sample_iface) false sample_world
    = Done (false, mk_world sample_tinfo ∅
                     [EvList "/run/host-containerd/containerd.sock" ["id~=0123456789ab"]]).
Proof.
  split; [cbn; lia|].
  refine (proj2 (resolve_no_single_descriptor (sample_host [ubuntu_desc; shifted_id_desc])
                   sample_iface false sample_world "0123456789ab"
                   "/default/0123456789abcdef0123" status_ok [ubuntu_desc; shifted_id_desc]
                   _ _ _ _ _)).
  - reflexivity.
  - vm_compute. reflexivity.
  - vm_compute. reflexivity.
  - reflexivity.
  - cbn. lia.
Defined.

(** C10: every run of [resolve] that returns false leaves the thread (its
    container association) and the container cache as they were; at most
    the daemon's List call was made. *)
Theorem resolve_false_leaves_state h m_interface q w w' :
  resolve h m_interface q w = Done (false, w') ->
  w_tinfo w' = w_tinfo w /\ w_cache w' = w_cache w /\
  (w_trace w' = w_trace w \/ exists s f, w_trace w' = (w_trace w ++ [EvList s f])%list).
Proof.
  destruct m_interface as [i|].
  - intros H.
    apply resolve_done in H as [(_ & _ & ->)|[(cid & cg & c & _ & Hp & _)|(_ & _ & _ & _ & _ & _ & Hb & _)]].
    + auto.
    + apply parse_containerd_done in Hp as (-> & _). cbn. eauto 6.
    + discriminate.
  - unfold resolve. unfold_M. cbn -[parse_containerd].
    destruct (h_match h (m_cgroups (w_tinfo w)) CONTAINERD_CGROUP_LAYOUT) as [[cid cg]|]; cbn.
    + discriminate.
    + intros H. injection H as <-. auto.
Qed.

Lemma resolve_false_leaves_state_witness :
  resolve (set_daemon (sample_host [ubuntu_desc]) failing_daemon) (Some sample_iface) false
      sample_world
    = Done (false, mk_world sample_tinfo ∅
                     [EvList "/run/host-containerd/containerd.sock" ["id~=0123456789ab"]]) /\
  w_tinfo (mk_world sample_tinfo ∅
             [EvList "/run/host-containerd/containerd.sock" ["id~=0123456789ab"]])
    = w_tinfo sample_world.
Proof.
  split; [vm_compute; reflexivity|].
  refine (proj1 (resolve_false_leaves_state (set_daemon (sample_host [ubuntu_desc]) failing_daemon)
                   (Some sample_iface) false sample_world _ _)).
  vm_compute. reflexivity.
Defined.

(** ** An unusable backend *)

(** The constructor's result when no candidate socket exists. *)
Lemma containerd_ctor_no_socket h :
  (forall p, h_stat h p = None) -> containerd_ctor h = None.
Proof.
  intros Hs. unfold containerd_ctor, containerd_ctor_step. cbn -[h_stat].
  rewrite !Hs. reflexivity.
Qed.

(** C1 (the code's behaviour): when the backend is unusable
    ([m_interface] null) and the thread's cgroup matches the containerd
    layout, [resolve] does not return false: [parse_containerd]
    dereferences the null [m_interface]. *)
Theorem resolve_unusable_backend_crashes h q w cid cg :
  h_match h (m_cgroups (w_tinfo w)) CONTAINERD_CGROUP_LAYOUT = Some (cid, cg) ->
  resolve h None q w = Crash "null m_interface dereference".
Proof.
  intros Hm. unfold resolve. unfold_M. cbn -[parse_containerd].
  rewrite Hm. reflexivity.
Qed.

Lemma resolve_unusable_backend_crashes_witness :
  containerd_ctor no_socket_host = None /\
  resolve no_socket_host None false sample_world = Crash "null m_interface dereference".
Proof.
  split.
  - apply containerd_ctor_no_socket. reflexivity.
  - apply (resolve_unusable_backend_crashes no_socket_host false sample_world "0123456789ab"
             "/default/0123456789abcdef0123").
    vm_compute. reflexivity.
Defined.

(** ** Socket discovery *)

(** C2 (the code's behaviour): the loop over [CONTAINERD_SOCKETS] has no
    [break], so whenever the second candidate is a socket, it alone decides
    [m_interface]: bound to it when its List call succeeds, null otherwise,
    whatever the first candidate gave. *)
Theorem containerd_ctor_second_socket_decides h :
  h_stat h (h_host_root h ++ "/run/containerd/runtime2/containerd.sock") = Some S_IFSOCK ->
  containerd_ctor h =
    (let i := containerd_interface_new h (h_host_root h ++ "/run/containerd/runtime2/containerd.sock") in
     if is_ok i then Some i else None).
Proof.
  intros Hs. unfold containerd_ctor. cbn [fold_left CONTAINERD_SOCKETS].
  unfold containerd_ctor_step at 1. cbn [String.eqb Ascii.eqb Bool.eqb].
  rewrite Hs. reflexivity.
Qed.

Lemma containerd_ctor_second_socket_decides_witness :
  h_stat (sample_host []) ("" ++ "/run/containerd/runtime2/containerd.sock") = Some S_IFSOCK /\
  h_stat (sample_host []) ("" ++ "/run/host-containerd/containerd.sock") = Some S_IFSOCK /\
  containerd_ctor (sample_host []) =
    Some (mk_iface "/run/containerd/runtime2/containerd.sock" true).
Proof.
  split; [reflexivity|]. split; [reflexivity|].
  rewrite (containerd_ctor_second_socket_decides (sample_host []) eq_refl).
  vm_compute. reflexivity.
Defined.

(** With both candidate sockets present, the first one healthy and the
    second one refusing List, the backend ends up unusable. *)
Lemma containerd_ctor_second_socket_down :
  containerd_ctor (set_daemon (sample_host []) (second_socket_down [])) = None.
Proof. vm_compute. reflexivity. Qed.

(** ** Resource limits *)

(** C3, as the claim states it, fails: the thread's cgroup matches the
    layout, the daemon query fails, and [resolve] returns false having made
    only the List call: the limits are never queried. *)
Lemma resolve_daemon_error_skips_limits :
  h_match (sample_host [ubuntu_desc]) (m_cgroups sample_tinfo) CONTAINERD_CGROUP_LAYOUT
    = Some ("0123456789ab", "/default/0123456789abcdef0123") /\
  resolve (set_daemon (sample_host [ubuntu_desc]) failing_daemon) (Some sample_iface) false
      sample_world
    = Done (false, mk_world sample_tinfo ∅
                     [EvList "/run/host-containerd/containerd.sock" ["id~=0123456789ab"]]).
Proof. split; vm_compute; reflexivity. Qed.

(** C3 (amended): every run of [resolve] only appends to the trace. Host
    limits are queried only in a run that returns true: a run that returns
    false, in particular one whose filtered List call fails or does not
    answer with exactly one descriptor after the cgroup matched, appends no
    limits query. A run that returns true matched the cgroup, got exactly
    one descriptor from a successful List call, and only then queried the
    host limits for the container id and the thread's cpu, memory and
    cpuset cgroups; every record published or notified afterwards carries
    exactly those limits. *)
Theorem resolve_limits_after_daemon h i q w b w' :
  resolve h (Some i) q w = Done (b, w') ->
  exists post,
    w_trace w' = (w_trace w ++ post)%list /\
    (forall cid cg,
       h_match h (m_cgroups (w_tinfo w)) CONTAINERD_CGROUP_LAYOUT = Some (cid, cg) ->
       st_ok (fst (h_daemon h (ci_socket i) ["id~=" ++ cid])) = false \/
       List.length (snd (h_daemon h (ci_socket i) ["id~=" ++ cid])) <> 1%nat ->
       b = false) /\
    (b = false -> forall key, ~ In (EvLimits key) post) /\
    (b = true ->
     exists cid cg st d,
       h_match h (m_cgroups (w_tinfo w)) CONTAINERD_CGROUP_LAYOUT = Some (cid, cg) /\
       h_daemon h (ci_socket i) ["id~=" ++ cid] = (st, [d]) /\ st_ok st = true /\
       let key := mk_key cid (get_cgroup (w_tinfo w) "cpu") (get_cgroup (w_tinfo w) "memory")
                    (get_cgroup (w_tinfo w) "cpuset") in
       exists post',
         post = EvList (ci_socket i) [("id~=" ++ cid)%string] :: EvLimits key :: post' /\
         (forall c tid, In (EvAdd c tid) post' \/ In (EvNotify c tid) post' ->
                        limits_of c = h_limits h key)).
Proof.
  intros H.
  apply resolve_done in H as [(Hm & -> & ->)|[(cid & cg & c & Hm & Hp & ->)|(cid & cg & c & w1 & Hm & Hp & -> & Hw)]].
  - exists []. split; [rewrite app_nil_r; reflexivity|].
    split; [intros cid cg Hm'; rewrite Hm in Hm'; discriminate|].
    split; [intros _ key []|discriminate].
  - apply parse_containerd_done in Hp as (-> & _ & _).
    exists [EvList (ci_socket i) ["id~=" ++ cid]]. split; [reflexivity|].
    split; [reflexivity|].
    split; [intros _ key [Heq|[]]; discriminate|discriminate].
  - pose proof Hp as Hp'. apply parse_containerd_done in Hp' as (-> & _ & Htrue).
    destruct (Htrue eq_refl) as (st & d & Hd & Hst & Hid & _).
    cbn in Hw. unfold limits_key in Hw. rewrite Hid in Hw.
    set (key := mk_key cid (get_cgroup (w_tinfo w) "cpu") (get_cgroup (w_tinfo w) "memory")
                  (get_cgroup (w_tinfo w) "cpuset")) in *.
    assert (Hpost : exists post',
      w_trace w' = (w_trace w ++ EvList (ci_socket i) [("id~=" ++ cid)%string] :: EvLimits key :: post')%list /\
      (forall c tid, In (EvAdd c tid) post' \/ In (EvNotify c tid) post' ->
                     limits_of c = h_limits h key)).
    { destruct (w_cache w !! cid); subst w'; cbn [w_trace].
      - exists []. split.
        + rewrite <- app_assoc. reflexivity.
        + intros c3 tid [[]|[]].
      - eexists. split.
        + rewrite <- app_assoc. reflexivity.
        + intros c3 tid [Hin|Hin]; cbn in Hin;
            destruct Hin as [Heq|[Heq|[]]]; try discriminate;
            injection Heq as <- _; cbn; destruct (h_limits h _); reflexivity. }
    destruct Hpost as (post' & Htr & Hlim).
    exists (EvList (ci_socket i) [("id~=" ++ cid)%string] :: EvLimits key :: post').
    split; [exact Htr|].
    split.
    { intros cid' cg' Hm' Hf. rewrite Hm in Hm'. injection Hm' as <- _.
      rewrite Hd in Hf. cbn in Hf. rewrite Hst in Hf.
      destruct Hf as [Hf|Hf]; [discriminate|contradiction Hf; reflexivity]. }
    split; [discriminate|].
    intros _. exists cid, cg, st, d. split; [exact Hm|]. split; [exact Hd|].
    split; [exact Hst|]. exists post'. split; [reflexivity|exact Hlim].
Qed.

Lemma resolve_limits_after_daemon_witness :
  (exists w',
    resolve (set_daemon (sample_host [ubuntu_desc]) failing_daemon) (Some sample_iface) false
      sample_world = Done (false, w') /\
    exists post,
      w_trace w' = (w_trace sample_world ++ post)%list /\
      (forall key, ~ In (EvLimits key) post)) /\
  (exists w',
    resolve (sample_host [ubuntu_desc]) (Some sample_iface) false sample_world = Done (true, w') /\
    exists cid cg st d,
      h_match (sample_host [ubuntu_desc]) (m_cgroups (w_tinfo sample_world))
        CONTAINERD_CGROUP_LAYOUT = Some (cid, cg) /\
      h_daemon (sample_host [ubuntu_desc]) (ci_socket sample_iface) ["id~=" ++ cid] = (st, [d]) /\
      st_ok st = true).
Proof.
  split.
  - eexists. split.
    + vm_compute. reflexivity.
    + destruct (resolve_limits_after_daemon (set_daemon (sample_host [ubuntu_desc]) failing_daemon)
                  sample_iface false sample_world false _ ltac:(vm_compute; reflexivity))
        as (post & Htr & _ & Hnone & _).
      exists post. split; [exact Htr|exact (Hnone eq_refl)].
  - eexists. split.
    + vm_compute. reflexivity.
    + destruct (resolve_limits_after_daemon (sample_host [ubuntu_desc])
                  sample_iface false sample_world true _ ltac:(vm_compute; reflexivity))
        as (post & _ & _ & _ & Htrue).
      destruct (Htrue eq_refl) as (cid & cg & st & d & Hm & Hd & Hst & _).
      exists cid, cg, st, d. auto.
Defined.

(** ** The image reference *)

Lemma rfind_from_absent c s i :
  has_char c s = false -> rfind_from s (String c EmptyString) i = None.
Proof.
  revert i. induction s as [|d rest IH]; intros i H; cbn in *.
  - reflexivity.
  - destruct (ascii_dec c d); [discriminate|]. rewrite IH by exact H. reflexivity.
Qed.

Lemma rfind_absent c s : has_char c s = false -> rfind s (String c EmptyString) = npos.
Proof. intros H. unfold rfind. rewrite rfind_from_absent by exact H. reflexivity. Qed.

Lemma take_until_length c s : String.length (take_until c s) <= String.length s.
Proof. induction s as [|d rest IH]; cbn; [lia|]. destruct (ascii_dec d c); cbn; lia. Qed.

Lemma take_until_has_char c d s : has_char c s = false -> has_char c (take_until d s) = false.
Proof.
  induction s as [|e rest IH]; cbn; [auto|].
  destruct (ascii_dec c e); [discriminate|]. intros H.
  destruct (ascii_dec e d); cbn; [reflexivity|]. destruct (ascii_dec c e); [contradiction|auto].
Qed.

Lemma sinsp_split_head s d : exists rest, sinsp_split s d = take_until d s :: rest.
Proof.
  induction s as [|e s IH]; cbn.
  - eauto.
  - destruct IH as [rest ->]. destruct (ascii_dec e d); eauto.
Qed.

Lemma sinsp_split_no_delim s d : has_char d s = false -> sinsp_split s d = [s].
Proof.
  induction s as [|e s IH]; cbn; [auto|].
  destruct (ascii_dec d e) as [->|Hne]; [discriminate|]. intros H. rewrite IH by exact H.
  destruct (ascii_dec e d); [congruence|reflexivity].
Qed.

Lemma substring_whole s n : String.length s <= n -> String.substring 0 n s = s.
Proof.
  revert n. induction s as [|e s IH]; intros n H; cbn in *.
  - destruct n; reflexivity.
  - destruct n; [lia|]. cbn. rewrite IH by lia. reflexivity.
Qed.

Lemma substr_whole s pos :
  (N.of_nat (String.length s) < npos)%N -> pos = 0%N -> substr s pos npos = Some s.
Proof.
  intros H ->. unfold substr.
  replace (0 <=? N.of_nat (String.length s))%N with true by (symmetry; apply N.leb_le; lia).
  f_equal. cbn [N.to_nat]. apply substring_whole.
  rewrite N.sub_0_r, N.min_r by lia. rewrite Nnat.Nat2N.id. lia.
Qed.

Lemma parse_image_no_slash s im re tg :
  has_char "/" s = false -> (N.of_nat (String.length s) < npos)%N ->
  parse_image s = Some (im, re, tg) ->
  im = take_until ":" s /\ re = take_until ":" s /\ has_char ":" s = true.
Proof.
  intros Hs Hlen. unfold parse_image.
  destruct (sinsp_split_head s ":") as [rest Hsplit]. rewrite Hsplit. cbn -[substr rfind].
  assert (Hu : has_char "/" (take_until ":" s) = false) by (apply take_until_has_char; exact Hs).
  assert (Hl : (N.of_nat (String.length (take_until ":" s)) < npos)%N).
  { pose proof (take_until_length ":" s). lia. }
  rewrite (rfind_absent "/" _ Hu).
  rewrite (substr_whole _ (size_add npos 1) Hl) by reflexivity.
  rewrite (substr_whole _ 0 Hl) by reflexivity. cbn.
  destruct rest as [|tg' rest]; cbn; [discriminate|].
  intros Heq; injection Heq as <- <- <-. split; [reflexivity|]. split; [reflexivity|].
  destruct (has_char ":" s) eqn:Hc; [reflexivity|].
  rewrite (sinsp_split_no_delim s ":" Hc) in Hsplit. discriminate.
Qed.

(** C4, as the claim states it, fails: for the reference ["ubuntu:22.04"]
    (no [/]) the produced record's repo is ["ubuntu"], not empty. *)
Lemma parse_containerd_short_image_repo :
  option_map (fun c => (m_imagerepo c, m_image c, m_imagetag c))
    (produced_record (parse_containerd (sample_host [short_image_desc]) (Some sample_iface)
                        sinsp_container_info_default "0123456789ab" sample_world))
  = Some ("ubuntu", "ubuntu", "22.04").
Proof. vm_compute. reflexivity. Qed.

(** C4 (amended): when the single descriptor's image reference has no
    [/] and a record is produced (which needs a [:] in the reference), the
    record's repo and its image name are both the whole text before the
    first [:]. *)
Theorem parse_containerd_image_without_slash h i c cid w c' w' st d :
  h_daemon h (ci_socket i) ["id~=" ++ cid] = (st, [d]) ->
  has_char "/" (d_image d) = false ->
  (N.of_nat (String.length (d_image d)) < npos)%N ->
  parse_containerd h (Some i) c cid w = Done ((true, c'), w') ->
  m_imagerepo c' = take_until ":" (d_image d) /\
  m_image c' = take_until ":" (d_image d) /\
  has_char ":" (d_image d) = true.
Proof.
  intros Hd Hs Hlen Hp.
  apply parse_containerd_done in Hp as (_ & _ & Htrue).
  destruct (Htrue eq_refl) as (st' & d' & Hd' & _ & _ & _ & Hi).
  rewrite Hd in Hd'. injection Hd' as _ <-.
  destruct (parse_image_no_slash _ _ _ _ Hs Hlen Hi) as (-> & -> & Hc). auto.
Qed.

Lemma parse_containerd_image_without_slash_witness :
  exists c' w',
    parse_containerd (sample_host [short_image_desc]) (Some sample_iface)
      sinsp_container_info_default "0123456789ab" sample_world = Done ((true, c'), w') /\
    m_imagerepo c' = take_until ":" (d_image short_image_desc) /\
    m_image c' = take_until ":" (d_image short_image_desc) /\
    has_char ":" (d_image short_image_desc) = true.
Proof.
  do 2 eexists. split; [vm_compute; reflexivity|].
  eapply (parse_containerd_image_without_slash (sample_host [short_image_desc]) sample_iface
           sinsp_container_info_default "0123456789ab" sample_world _ _ status_ok short_image_desc).
  - vm_compute. reflexivity.
  - reflexivity.
  - vm_compute. reflexivity.
  - vm_compute. reflexivity.
Defined.

(** ** The full id *)

Lemma filtering_daemon_honours_filter ds s x st ds' :
  filtering_daemon ds s ["id~=" ++ x] = (st, ds') ->
  Forall (fun d => contains x (d_id d) = true) ds'.
Proof.
  unfold filtering_daemon. intros H. injection H as _ <-.
  apply List.Forall_forall. intros d Hin. apply List.filter_In in Hin as [_ Hf].
  cbn in Hf. rewrite andb_true_r in Hf. exact Hf.
Qed.

(** C5, as the claim states it, fails: a daemon that honours the [id~=]
    substring filter returns a descriptor whose id holds the truncated id
    past its first character; the record's id is not a prefix of its
    full id. *)
Lemma parse_containerd_id_not_prefix :
  option_map (fun c => (m_id c, m_full_id c, String.prefix (m_id c) (m_full_id c)))
    (produced_record (parse_containerd (sample_host [shifted_id_desc]) (Some sample_iface)
                        sinsp_container_info_default "0123456789ab" sample_world))
  = Some ("0123456789ab", "f0123456789abcdef0123", false).
Proof. vm_compute. reflexivity. Qed.

(** C5 (amended): a produced record's id is the truncated id and its full
    id is the id of the single descriptor the daemon returned; when the
    daemon honours the [id~=] filter as substring containment, the full id
    contains the id as a substring. *)
Theorem parse_containerd_full_id_contains_id h i c cid w c' w' :
  (forall st ds, h_daemon h (ci_socket i) ["id~=" ++ cid] = (st, ds) ->
                 Forall (fun d => contains cid (d_id d) = true) ds) ->
  parse_containerd h (Some i) c cid w = Done ((true, c'), w') ->
  m_id c' = cid /\ contains (m_id c') (m_full_id c') = true /\
  exists st d, h_daemon h (ci_socket i) ["id~=" ++ cid] = (st, [d]) /\ m_full_id c' = d_id d.
Proof.
  intros Hf Hp.
  apply parse_containerd_done in Hp as (_ & _ & Htrue).
  destruct (Htrue eq_refl) as (st & d & Hd & _ & Hid & Hfull & _).
  pose proof (Hf _ _ Hd) as Hall. apply Forall_cons in Hall as [Hc _].
  split; [exact Hid|]. split; [rewrite Hid, Hfull; exact Hc|]. eauto.
Qed.

Lemma parse_containerd_full_id_contains_id_witness :
  exists c' w',
    parse_containerd (sample_host [shifted_id_desc]) (Some sample_iface)
      sinsp_container_info_default "0123456789ab" sample_world = Done ((true, c'), w') /\
    m_id c' = "0123456789ab" /\ contains (m_id c') (m_full_id c') = true /\
    exists st d, h_daemon (sample_host [shifted_id_desc]) (ci_socket sample_iface)
                   ["id~=" ++ "0123456789ab"] = (st, [d]) /\ m_full_id c' = d_id d.
Proof.
  do 2 eexists. split; [vm_compute; reflexivity|].
  eapply (parse_containerd_full_id_contains_id (sample_host [shifted_id_desc]) sample_iface
           sinsp_container_info_default "0123456789ab" sample_world).
  - intros st ds. apply filtering_daemon_honours_filter.
  - vm_compute. reflexivity.
Defined.

(** ** Mounts *)

(** C9 (the code's behaviour): the [mode=] test is
    [opt.rfind("mode=") == 0], which looks for the LAST occurrence of
    ["mode="]; the option ["mode=0mode=1"] has the form [mode=<value>] but
    its last ["mode="] is at 6, so the mount's mode stays empty instead of
    ["0mode=1"]. The read-only flag and the shared propagation are as
    documented. *)
Theorem parse_mounts_mode_in_mode_value :
  parse_mounts mode_in_mode_spec = Some [mk_mount "/host" "/mnt" "" true "rprivate"].
Proof. vm_compute. reflexivity. Qed.

(** The example of the spec: [options = ["ro"]] and [rprivate]. *)
Example parse_mounts_ro_example :
  parse_mounts (JObject [("linux", JObject [("rootfsPropagation", JString "rprivate")]);
                         ("mounts", JArray [JObject [("destination", JString "/mnt");
                                                     ("options", JArray [JString "ro"]);
                                                     ("source", JString "/host")]])])
  = Some [mk_mount "/host" "/mnt" "" false "rprivate"].
Proof. vm_compute. reflexivity. Qed.

(** For string options, the read-only flag is set exactly when some
    option equals ["ro"]. *)
Lemma scan_options_readonly (opts : list string) r m r' m' :
  scan_options (map JString opts) r m = Some (r', m') ->
  r' = r || existsb (String.eqb "ro") opts.
Proof.
  revert r m. induction opts as [|o opts IH]; intros r m H;
    cbn [scan_options map asString mbind option_bind] in H.
  - injection H as <- _. cbn. rewrite orb_false_r. reflexivity.
  - cbn [existsb]. rewrite (String.eqb_sym "ro" o).
    destruct (String.eqb o "ro").
    + rewrite (IH _ _ H). destruct r; reflexivity.
    + destruct (rfind o "mode=" =? 0)%N.
      * destruct (substr o 5 npos) as [m1|]; [|discriminate]. apply (IH _ _ H).
      * apply (IH _ _ H).
Qed.

(** Every mount of a parsed spec carries the one propagation string read
    from [linux.rootfsPropagation]. *)
Lemma parse_mounts_shared_propagation spec ms linux p :
  jindex spec "linux" = Some linux ->
  (jindex linux "rootfsPropagation" ≫= asString) = Some p ->
  parse_mounts spec = Some ms ->
  Forall (fun mi => m_propagation mi = p) ms.
Proof.
  intros Hl Hp. unfold parse_mounts.
  destruct (jindex spec "mounts") as [mounts|]; cbn; [|discriminate].
  intros H. apply mapM_Some_1 in H.
  induction H as [|x mi xs ms Hx _ IH]; constructor; [|exact IH].
  unfold mount_of_entry in Hx.
  destruct (jindex x "options"); cbn in Hx; [|discriminate].
  destruct (scan_options _ _ _) as [[r md]|]; cbn in Hx; [|discriminate].
  destruct (jindex x "source" ≫= asString); cbn in Hx; [|discriminate].
  destruct (jindex x "destination" ≫= asString); cbn in Hx; [|discriminate].
  rewrite Hl in Hx. cbn in Hx. rewrite Hp in Hx. cbn in Hx.
  injection Hx as <-. reflexivity.
Qed.

(** ** Further properties of the engine *)

Lemma append_nil_l (b : string) : "" ++ b = b.
Proof. reflexivity. Qed.

Lemma append_cons c (a b : string) : String c a ++ b = String c (a ++ b).
Proof. reflexivity. Qed.

Lemma append_assoc_str (a b c : string) : a ++ (b ++ c) = (a ++ b) ++ c.
Proof. induction a as [|d a IH]; [reflexivity|]. rewrite !append_cons, IH. reflexivity. Qed.

Lemma string_length_app (a b : string) : String.length (a ++ b) = String.length a + String.length b.
Proof. induction a as [|c a IH]; [reflexivity|]. rewrite append_cons. cbn. rewrite IH. reflexivity. Qed.

Lemma has_char_app c (a b : string) : has_char c (a ++ b) = has_char c a || has_char c b.
Proof.
  induction a as [|d a IH]; [reflexivity|]. rewrite append_cons. cbn.
  destruct (ascii_dec c d); [reflexivity|exact IH].
Qed.

Lemma sinsp_split_app a b d :
  has_char d a = false -> sinsp_split (a ++ String d b) d = a :: sinsp_split b d.
Proof.
  induction a as [|c a IH]; intros H; [rewrite append_nil_l|rewrite append_cons]; cbn in *.
  - destruct (ascii_dec d d); [reflexivity|contradiction].
  - destruct (ascii_dec d c) as [->|Hne]; [discriminate|]. rewrite IH by exact H.
    destruct (ascii_dec c d); [congruence|reflexivity].
Qed.

Lemma rfind_from_last a b i :
  has_char "/" b = false ->
  rfind_from (a ++ String "/" b) (String "/" EmptyString) i = Some (i + String.length a).
Proof.
  revert i. induction a as [|c a IH]; intros i H; [rewrite append_nil_l|rewrite append_cons];
    cbn -[String.prefix].
  - rewrite rfind_from_absent by exact H. cbn. destruct b; cbn; f_equal; lia.
  - rewrite IH by exact H. f_equal. lia.
Qed.

Lemma substring_app_skip a t k m :
  String.substring (String.length a + k) m (a ++ t) = String.substring k m t.
Proof. induction a as [|c a IH]; [reflexivity|]. rewrite append_cons. exact IH. Qed.

Lemma substring_app_prefix a t : String.substring 0 (String.length a) (a ++ t) = a.
Proof. induction a as [|c a IH]; [destruct t; reflexivity|]. rewrite append_cons. cbn. rewrite IH. reflexivity. Qed.

(** X2: for a reference [repo/image:tag] with no [:] in its parts and no
    [/] in the image name, the image is the text after the last [/], the
    repo the text before it, and the tag the text after the [:]. *)
Lemma parse_image_with_slash repo img tag :
  has_char ":" repo = false -> has_char ":" img = false -> has_char "/" img = false ->
  has_char ":" tag = false ->
  (N.of_nat (String.length repo + 1 + String.length img) < npos)%N ->
  parse_image (repo ++ "/" ++ img ++ ":" ++ tag) = Some (img, repo, tag).
Proof.
  intros Hr Hi Hs Ht Hlen. unfold parse_image.
  assert (Hs0 : has_char ":" (repo ++ "/" ++ img) = false).
  { rewrite !has_char_app, Hr, Hi. reflexivity. }
  replace (repo ++ "/" ++ img ++ ":" ++ tag) with ((repo ++ "/" ++ img) ++ String ":" tag)
    by (rewrite <- !append_assoc_str; reflexivity).
  rewrite (sinsp_split_app _ _ _ Hs0), (sinsp_split_no_delim _ _ Ht).
  cbn [vec_at lookup list_lookup mbind option_bind].
  change ("/" ++ img) with (String "/" img). unfold rfind. rewrite (rfind_from_last repo img 0 Hs). cbn [Nat.add].
  assert (Hl : String.length (repo ++ String "/" img) = String.length repo + 1 + String.length img)
    by (rewrite string_length_app; cbn; lia).
  unfold substr. rewrite Hl.
  replace (size_add (N.of_nat (String.length repo)) 1) with (N.of_nat (String.length repo + 1))
    by (unfold size_add; rewrite N.mod_small; [lia|unfold npos in Hlen; lia]).
  replace (N.of_nat (String.length repo + 1) <=? N.of_nat (String.length repo + 1 + String.length img))%N
    with true by (symmetry; apply N.leb_le; lia).
  replace (0 <=? N.of_nat (String.length repo + 1 + String.length img))%N
    with true by (symmetry; apply N.leb_le; lia).
  cbn [mbind option_bind].
  replace (N.to_nat (N.of_nat (String.length repo + 1)))
    with (String.length repo + 1) by (rewrite Nnat.Nat2N.id; reflexivity).
  rewrite substring_app_skip. cbn [String.substring].
  replace (N.to_nat (N.min (N.of_nat (String.length repo))
            (N.of_nat (String.length repo + 1 + String.length img) - 0)))
    with (String.length repo) by lia.
  rewrite substring_app_prefix.
  replace (N.to_nat (N.min npos (N.of_nat (String.length repo + 1 + String.length img)
                                 - N.of_nat (String.length repo + 1))))
    with (String.length img) by lia.
  rewrite substring_whole by lia. reflexivity.
Qed.

Lemma containerd_interface_new_eq h s :
  containerd_interface_new h s = mk_iface s (st_ok (fst (h_daemon h s []))).
Proof. unfold containerd_interface_new. destruct (h_daemon h s []). reflexivity. Qed.

Lemma resolve_new_entry h i q w b w' k c :
  resolve h (Some i) q w = Done (b, w') ->
  w_cache w !! k = None -> w_cache w' !! k = Some c ->
  exists cg c0 w1,
    h_match h (m_cgroups (w_tinfo w)) CONTAINERD_CGROUP_LAYOUT = Some (k, cg) /\
    parse_containerd h (Some i) sinsp_container_info_default k w = Done ((true, c0), w1) /\
    b = true /\ m_id c0 = k /\
    c = mark_successful (with_limits c0 (h_limits h (limits_key c0 (w_tinfo w)))) /\
    w' = mk_world (mk_tinfo (m_tid (w_tinfo w)) k (m_cgroups (w_tinfo w))) (<[k := c]> (w_cache w))
           (w_trace w ++ [EvList (ci_socket i) ["id~=" ++ k]; EvLimits (limits_key c0 (w_tinfo w));
                          EvAdd c (m_tid (w_tinfo w)); EvNotify c (m_tid (w_tinfo w))]).
Proof.
  intros H Hk Hk'.
  apply resolve_done in H as [(Hm & -> & ->)|[(cid & cg & c0 & Hm & Hp & ->)|(cid & cg & c0 & w1 & Hm & Hp & -> & Hw)]].
  - congruence.
  - apply parse_containerd_done in Hp as (-> & _). cbn in Hk'. congruence.
  - pose proof Hp as Hp'. apply parse_containerd_done in Hp' as (-> & _ & Htrue).
    destruct (Htrue eq_refl) as (st & d & Hd & Hst & Hid & _). cbn in Hw. rewrite Hid in Hw.
    destruct (w_cache w !! cid) eqn:Hc; subst w'; cbn in Hk'; [congruence|].
    destruct (decide (k = cid)) as [->|Hne].
    + rewrite lookup_insert_eq in Hk'. injection Hk' as <-.
      exists cg, c0. eexists. split; [exact Hm|]. split; [exact Hp|]. split; [reflexivity|].
      split; [exact Hid|]. split; [reflexivity|]. rewrite <- app_assoc. reflexivity.
    + rewrite lookup_insert_ne in Hk' by congruence. congruence.
Qed.

Lemma copy_labels_cons max kv rest acc :
  copy_labels max (kv :: rest) acc =
  copy_labels max rest (if (String.length kv.2 <=? max)%nat then <[kv.1 := kv.2]> acc else acc).
Proof. reflexivity. Qed.

Lemma copy_labels_sound max labels acc k v :
  copy_labels max labels acc !! k = Some v ->
  acc !! k = Some v \/ (In (k, v) labels /\ String.length v <= max).
Proof.
  revert acc. induction labels as [|[k1 v1] rest IH]; intros acc H.
  - auto.
  - rewrite copy_labels_cons in H. cbn [fst snd] in H.
    apply IH in H as [H|[Hin Hle]]; [|right; split; [right; exact Hin|exact Hle]].
    destruct (String.length v1 <=? max)%nat eqn:Hl; [|auto].
    destruct (decide (k = k1)) as [->|Hne].
    + rewrite lookup_insert_eq in H. injection H as <-. right.
      split; [left; reflexivity|]. apply Nat.leb_le. exact Hl.
    + rewrite lookup_insert_ne in H by congruence. auto.
Qed.

Lemma copy_labels_notin max labels acc k :
  ~ In k (map fst labels) -> copy_labels max labels acc !! k = acc !! k.
Proof.
  revert acc. induction labels as [|[k1 v1] rest IH]; intros acc Hn; [reflexivity|].
  rewrite copy_labels_cons. cbn [fst snd map] in *. rewrite IH by (intros Hin; apply Hn; right; exact Hin).
  destruct (String.length v1 <=? max)%nat; [|reflexivity].
  rewrite lookup_insert_ne; [reflexivity|]. intros ->. apply Hn. left. reflexivity.
Qed.

Lemma rfind_from_ge s pat i0 j : rfind_from s pat i0 = Some j -> i0 <= j.
Proof.
  revert i0. induction s as [|c s IH]; intros i0 H; cbn -[String.prefix] in H.
  - destruct (String.prefix pat ""); inversion H; lia.
  - destruct (rfind_from s pat (S i0)) as [j'|] eqn:Hr.
    + inversion H; subst j'. apply IH in Hr. lia.
    + destruct (String.prefix pat _); inversion H; lia.
Qed.

Lemma rfind_from_at_start s pat i0 : rfind_from s pat i0 = Some i0 -> String.prefix pat s = true.
Proof.
  intros H. destruct s as [|c s]; cbn -[String.prefix] in H.
  - destruct (String.prefix pat ""); [reflexivity|discriminate].
  - destruct (rfind_from s pat (S i0)) as [j'|] eqn:Hr.
    + inversion H; subst j'. apply rfind_from_ge in Hr. lia.
    + destruct (String.prefix pat (String c s)); [reflexivity|discriminate].
Qed.

Lemma prefix_app_ex a s : String.prefix a s = true -> exists v, s = a ++ v.
Proof.
  revert s. induction a as [|c a IH]; intros s H.
  - exists s. reflexivity.
  - destruct s as [|d s]; cbn in H; [discriminate|].
    destruct (ascii_dec c d) as [->|]; [|discriminate].
    destruct (IH s H) as [v ->]. exists v. reflexivity.
Qed.

Lemma rfind_zero_prefix s pat : (rfind s pat =? 0)%N = true -> exists v, s = pat ++ v.
Proof.
  unfold rfind. destruct (rfind_from s pat 0) as [j|] eqn:Hr; intros H.
  - apply N.eqb_eq in H. assert (j = 0) as -> by lia.
    apply prefix_app_ex, (rfind_from_at_start s pat 0), Hr.
  - discriminate.
Qed.

Lemma parse_image_no_colon s : has_char ":" s = false -> parse_image s = None.
Proof.
  intros H. unfold parse_image. rewrite (sinsp_split_no_delim s ":" H).
  cbn [vec_at lookup list_lookup mbind option_bind].
  destruct (substr s _ npos); cbn; [|reflexivity].
  destruct (substr s 0 _); reflexivity.
Qed.

(** X1: with distinct label keys (as in a protobuf map), the labels loop
    leaves under each key the descriptor's value when that value is at
    most the maximum length; otherwise, and when the descriptor has no such
    key, whatever the record already held. *)
Theorem copy_labels_lookup max labels acc k :
  NoDup (map fst labels) ->
  copy_labels max labels acc !! k =
    match find (fun kv => String.eqb kv.1 k) labels with
    | Some kv => if (String.length kv.2 <=? max)%nat then Some kv.2 else acc !! k
    | None => acc !! k
    end.
Proof.
  revert acc. induction labels as [|[k1 v1] rest IH]; intros acc Hnd; [reflexivity|].
  rewrite copy_labels_cons. cbn [fst snd map find] in *.
  apply NoDup_cons in Hnd as [Hnin Hnd].
  destruct (String.eqb k1 k) eqn:Hk.
  - apply String.eqb_eq in Hk. subst k1. rewrite copy_labels_notin by (intros Hin; apply Hnin, list_elem_of_In, Hin). cbn [fst snd].
    destruct (String.length v1 <=? max)%nat; [|reflexivity]. apply lookup_insert_eq.
  - apply String.eqb_neq in Hk. rewrite (IH _ Hnd).
    destruct (find _ rest) as [kv|]; [destruct (String.length kv.2 <=? max)%nat; [reflexivity|]|];
      (destruct (String.length v1 <=? max)%nat; [apply lookup_insert_ne; exact Hk|reflexivity]).
Qed.

Lemma copy_labels_lookup_witness :
  NoDup (map fst labelled_labels) /\
  copy_labels 20 labelled_labels ∅ !! "commit" = None /\
  copy_labels 20 labelled_labels ∅ !! "app" = Some "web".
Proof.
  assert (Hnd : NoDup (map fst labelled_labels)).
  { apply (bool_decide_unpack _). vm_compute. reflexivity. }
  split; [exact Hnd|]. split.
  - rewrite (copy_labels_lookup 20 labelled_labels ∅ "commit" Hnd). vm_compute. reflexivity.
  - rewrite (copy_labels_lookup 20 labelled_labels ∅ "app" Hnd). vm_compute. reflexivity.
Defined.

Lemma parse_image_with_slash_witness :
  parse_image ("docker.io/library" ++ "/" ++ "ubuntu" ++ ":" ++ "22.04")
    = Some ("ubuntu", "docker.io/library", "22.04").
Proof. apply parse_image_with_slash; vm_compute; reflexivity. Defined.

(** X3: a reference whose first [:] comes before any [/] (a registry with a
    port, [host:port/path:tag]) yields the host as both image and repo, and
    as tag the text between the first and the second [:]. *)
Theorem parse_image_registry_port host rest :
  has_char ":" host = false -> has_char "/" host = false ->
  (N.of_nat (String.length host) < npos)%N ->
  parse_image (host ++ ":" ++ rest) = Some (host, host, take_until ":" rest).
Proof.
  intros Hc Hs Hlen. unfold parse_image.
  change (":" ++ rest) with (String ":" rest).
  rewrite (sinsp_split_app _ _ _ Hc).
  destruct (sinsp_split_head rest ":") as [r ->].
  cbn [vec_at lookup list_lookup mbind option_bind].
  rewrite (rfind_absent "/" _ Hs).
  rewrite (substr_whole _ (size_add npos 1) Hlen) by reflexivity.
  rewrite (substr_whole _ 0 Hlen) by reflexivity. reflexivity.
Qed.

Lemma parse_image_registry_port_witness :
  parse_image ("registry.local" ++ ":" ++ "5000/library/ubuntu:22.04")
    = Some ("registry.local", "registry.local", "5000/library/ubuntu").
Proof. rewrite parse_image_registry_port by (vm_compute; reflexivity). reflexivity. Defined.

(** X4: when the single descriptor's image reference has no [:],
    [raw_image_splits] has one element and [raw_image_splits[1]] is out of
    range: [parse_containerd] does not return. *)
Theorem parse_containerd_image_without_colon h i c cid w st d :
  is_ok i = true ->
  h_daemon h (ci_socket i) ["id~=" ++ cid] = (st, [d]) -> st_ok st = true ->
  has_char ":" (d_image d) = false ->
  parse_containerd h (Some i) c cid w = Crash "raw_image_splits out of range".
Proof.
  unfold is_ok. intros Hok Hd Hst Hc.
  unfold parse_containerd, list_container_resp. unfold_M. cbn.
  rewrite Hok. cbn. rewrite Hd. cbn. rewrite Hst. cbn.
  rewrite (parse_image_no_colon _ Hc). reflexivity.
Qed.

Lemma parse_containerd_image_without_colon_witness :
  parse_containerd (sample_host [untagged_desc]) (Some sample_iface)
    sinsp_container_info_default "0123456789ab" sample_world
  = Crash "raw_image_splits out of range".
Proof.
  apply (parse_containerd_image_without_colon _ _ _ _ _ status_ok untagged_desc);
    vm_compute; reflexivity.
Defined.

Lemma parse_containerd_status_error h i c cid w st ds :
  is_ok i = true ->
  h_daemon h (ci_socket i) ["id~=" ++ cid] = (st, ds) -> st_ok st = false ->
  parse_containerd h (Some i) c cid w =
    Done ((false, c), mk_world (w_tinfo w) (w_cache w)
                        (w_trace w ++ [EvList (ci_socket i) ["id~=" ++ cid]])).
Proof.
  unfold is_ok. intros Hok Hd Hst.
  unfold parse_containerd, list_container_resp. unfold_M. cbn.
  rewrite Hok. cbn. rewrite Hd. cbn. rewrite Hst. reflexivity.
Qed.

(** X5: when the List call for the matched id fails, [resolve] returns
    false after that one call, with the thread and the cache unchanged,
    whatever descriptors came with the failure. *)
Theorem resolve_status_error h i q w cid cg st ds :
  is_ok i = true ->
  h_match h (m_cgroups (w_tinfo w)) CONTAINERD_CGROUP_LAYOUT = Some (cid, cg) ->
  h_daemon h (ci_socket i) ["id~=" ++ cid] = (st, ds) -> st_ok st = false ->
  resolve h (Some i) q w =
    Done (false, mk_world (w_tinfo w) (w_cache w)
                   (w_trace w ++ [EvList (ci_socket i) ["id~=" ++ cid]])).
Proof.
  intros Hok Hm Hd Hst.
  unfold resolve. unfold_M. cbn -[parse_containerd].
  rewrite Hm. cbn -[parse_containerd].
  rewrite (parse_containerd_status_error h i sinsp_container_info_default cid w st ds Hok Hd Hst).
  reflexivity.
Qed.

Lemma resolve_status_error_witness :
  resolve (set_daemon (sample_host [ubuntu_desc]) failing_daemon) (Some sample_iface) true
      sample_world
    = Done (false, mk_world (w_tinfo sample_world) (w_cache sample_world)
                     (w_trace sample_world ++ [EvList (ci_socket sample_iface) ["id~=" ++ "0123456789ab"]])).
Proof.
  apply (resolve_status_error _ _ _ _ "0123456789ab" "/default/0123456789abcdef0123"
           (mk_status false "context deadline exceeded") []); vm_compute; reflexivity.
Defined.

(** X6: when the thread's cgroups do not match the containerd layout,
    [resolve] returns false and changes nothing: no daemon call is made,
    even when [m_interface] is null. *)
Theorem resolve_no_match h mi q w :
  h_match h (m_cgroups (w_tinfo w)) CONTAINERD_CGROUP_LAYOUT = None ->
  resolve h mi q w = Done (false, w).
Proof.
  intros Hm. unfold resolve. unfold_M. cbn -[parse_containerd]. rewrite Hm. reflexivity.
Qed.

Lemma resolve_no_match_witness :
  resolve no_socket_host None false host_world = Done (false, host_world).
Proof. apply resolve_no_match. vm_compute. reflexivity. Defined.

(** X7: a cache entry that [resolve] creates is the record it published:
    stored under its own id, which is now the thread's container id; named
    after its id, marked SUCCESSFUL, of type containerd, with an empty
    digest; no other entry changes, and the run ends by adding and then
    notifying that record for the thread. *)
Theorem resolve_published_record h i q w b w' k c :
  resolve h (Some i) q w = Done (b, w') ->
  w_cache w !! k = None -> w_cache w' !! k = Some c ->
  b = true /\ m_id c = k /\ m_container_id (w_tinfo w') = k /\
  m_name c = k /\ m_lookup c = SUCCESSFUL /\ m_type c = CT_CONTAINERD /\
  m_imagedigest c = "" /\
  (forall k', k' <> k -> w_cache w' !! k' = w_cache w !! k') /\
  exists pre, w_trace w' = (pre ++ [EvAdd c (m_tid (w_tinfo w)); EvNotify c (m_tid (w_tinfo w))])%list.
Proof.
  intros H Hk Hk'.
  destruct (resolve_new_entry h i q w b w' k c H Hk Hk') as (cg & c0 & w1 & _ & Hp & -> & _ & -> & ->).
  apply parse_containerd_true in Hp as (st & d & im & re & tg & ms & es & _ & _ & _ & _ & _ & ->).
  cbn. repeat split.
  - intros k' Hne. apply lookup_insert_ne. congruence.
  - match goal with |- exists pre, (?l ++ [?a; ?b; ?c; ?d])%list = _ =>
      exists (l ++ [a; b])%list end.
    rewrite <- app_assoc. reflexivity.
Qed.

Lemma resolve_published_record_witness :
  exists w' c,
    resolve (sample_host [ubuntu_desc]) (Some sample_iface) false sample_world = Done (true, w') /\
    w_cache w' !! "0123456789ab" = Some c /\
    true = true /\ m_id c = "0123456789ab" /\ m_container_id (w_tinfo w') = "0123456789ab" /\
    m_name c = "0123456789ab" /\ m_lookup c = SUCCESSFUL /\ m_type c = CT_CONTAINERD /\
    m_imagedigest c = "" /\
    (forall k', k' <> "0123456789ab" -> w_cache w' !! k' = w_cache sample_world !! k') /\
    exists pre, w_trace w' = (pre ++ [EvAdd c (m_tid (w_tinfo sample_world));
                                      EvNotify c (m_tid (w_tinfo sample_world))])%list.
Proof.
  do 2 eexists. split; [vm_compute; reflexivity|]. split; [vm_compute; reflexivity|].
  eapply (resolve_published_record (sample_host [ubuntu_desc]) sample_iface false sample_world).
  - vm_compute. reflexivity.
  - reflexivity.
  - vm_compute. reflexivity.
Defined.

(** X8: a cache entry that [resolve] creates carries the content of the
    single descriptor the daemon returned for the id: its full id, the
    fields of its image reference, its labels (filtered by length), the
    mounts and env of its spec, and the host limits for the id and the
    thread's cpu, memory and cpuset cgroups. *)
Theorem resolve_published_content h i q w b w' k c :
  resolve h (Some i) q w = Done (b, w') ->
  w_cache w !! k = None -> w_cache w' !! k = Some c ->
  exists st d,
    h_daemon h (ci_socket i) ["id~=" ++ k] = (st, [d]) /\ st_ok st = true /\
    m_full_id c = d_id d /\
    parse_image (d_image d) = Some (m_image c, m_imagerepo c, m_imagetag c) /\
    m_labels c = copy_labels (h_label_max_length h) (d_labels d) ∅ /\
    parse_mounts (h_json_parse h (d_spec d)) = Some (m_mounts c) /\
    parse_env (h_json_parse h (d_spec d)) = Some (m_env c) /\
    limits_of c = h_limits h (mk_key k (get_cgroup (w_tinfo w) "cpu")
                                (get_cgroup (w_tinfo w) "memory") (get_cgroup (w_tinfo w) "cpuset")).
Proof.
  intros H Hk Hk'.
  destruct (resolve_new_entry h i q w b w' k c H Hk Hk') as (cg & c0 & w1 & _ & Hp & _ & Hid & Hc & _).
  apply parse_containerd_true in Hp as (st & d & im & re & tg & ms & es & Hd & Hst & Hi & Hms & Hes & Hc0).
  exists st, d. subst c. unfold limits_key. rewrite Hid. subst c0. cbn.
  repeat split; auto. destruct (h_limits h _); reflexivity.
Qed.

Lemma resolve_published_content_witness :
  exists w' c,
    resolve (sample_host [ubuntu_desc]) (Some sample_iface) false sample_world = Done (true, w') /\
    w_cache w' !! "0123456789ab" = Some c /\
    exists st d,
      h_daemon (sample_host [ubuntu_desc]) (ci_socket sample_iface) ["id~=" ++ "0123456789ab"]
        = (st, [d]) /\ st_ok st = true /\
      m_full_id c = d_id d /\
      parse_image (d_image d) = Some (m_image c, m_imagerepo c, m_imagetag c) /\
      m_labels c = copy_labels (h_label_max_length (sample_host [ubuntu_desc])) (d_labels d) ∅ /\
      parse_mounts (h_json_parse (sample_host [ubuntu_desc]) (d_spec d)) = Some (m_mounts c) /\
      parse_env (h_json_parse (sample_host [ubuntu_desc]) (d_spec d)) = Some (m_env c) /\
      limits_of c = h_limits (sample_host [ubuntu_desc])
                      (mk_key "0123456789ab" (get_cgroup (w_tinfo sample_world) "cpu")
                         (get_cgroup (w_tinfo sample_world) "memory")
                         (get_cgroup (w_tinfo sample_world) "cpuset")).
Proof.
  do 2 eexists. split; [vm_compute; reflexivity|]. split; [vm_compute; reflexivity|].
  eapply (resolve_published_content (sample_host [ubuntu_desc]) sample_iface false sample_world).
  - vm_compute. reflexivity.
  - reflexivity.
  - vm_compute. reflexivity.
Defined.

(** X9: every label of a record that [resolve] publishes is a label of
    the descriptor, and its value is at most the maximum label length. *)
Theorem resolve_published_labels h i q w b w' k c :
  resolve h (Some i) q w = Done (b, w') ->
  w_cache w !! k = None -> w_cache w' !! k = Some c ->
  exists st d,
    h_daemon h (ci_socket i) ["id~=" ++ k] = (st, [d]) /\
    map_Forall (fun key v => In (key, v) (d_labels d) /\ String.length v <= h_label_max_length h)
      (m_labels c).
Proof.
  intros H Hk Hk'.
  destruct (resolve_new_entry h i q w b w' k c H Hk Hk') as (cg & c0 & w1 & _ & Hp & _ & _ & Hc & _).
  apply parse_containerd_true in Hp as (st & d & im & re & tg & ms & es & Hd & _ & _ & _ & _ & Hc0).
  exists st, d. split; [exact Hd|]. subst c c0. cbn.
  intros key v Hl. apply copy_labels_sound in Hl as [Hl|Hl]; [|exact Hl].
  rewrite lookup_empty in Hl. discriminate.
Qed.

Lemma resolve_published_labels_witness :
  exists w' c,
    resolve (sample_host [ubuntu_desc]) (Some sample_iface) false sample_world = Done (true, w') /\
    w_cache w' !! "0123456789ab" = Some c /\
    exists st d,
      h_daemon (sample_host [ubuntu_desc]) (ci_socket sample_iface) ["id~=" ++ "0123456789ab"]
        = (st, [d]) /\
      map_Forall (fun key v => In (key, v) (d_labels d) /\
                               String.length v <= h_label_max_length (sample_host [ubuntu_desc]))
        (m_labels c).
Proof.
  do 2 eexists. split; [vm_compute; reflexivity|]. split; [vm_compute; reflexivity|].
  eapply (resolve_published_labels (sample_host [ubuntu_desc]) sample_iface false sample_world).
  - vm_compute. reflexivity.
  - reflexivity.
  - vm_compute. reflexivity.
Defined.

(** X10: [resolve] never removes or overwrites a cache entry: every key
    keeps its value, except on a run that returns true, where the thread's
    container id, which had no entry, may gain one. *)
Theorem resolve_cache_grows h mi q w b w' :
  resolve h mi q w = Done (b, w') ->
  forall k, w_cache w' !! k = w_cache w !! k \/
            (w_cache w !! k = None /\ b = true /\ k = m_container_id (w_tinfo w')).
Proof.
  destruct mi as [i|].
  - intros H k.
    apply resolve_done in H as [(_ & _ & ->)|[(cid & cg & c & _ & Hp & _)|(cid & cg & c & w1 & _ & Hp & -> & Hw)]].
    + left. reflexivity.
    + apply parse_containerd_done in Hp as (-> & _). left. reflexivity.
    + pose proof Hp as Hp'. apply parse_containerd_done in Hp' as (-> & _ & Htrue).
      destruct (Htrue eq_refl) as (st & d & _ & _ & Hid & _). cbn in Hw. rewrite Hid in Hw.
      destruct (w_cache w !! cid) eqn:Hc; subst w'; cbn; [left; reflexivity|].
      destruct (decide (k = cid)) as [->|Hne].
      * right. auto.
      * left. apply lookup_insert_ne. congruence.
  - unfold resolve. unfold_M. cbn -[parse_containerd].
    destruct (h_match h (m_cgroups (w_tinfo w)) CONTAINERD_CGROUP_LAYOUT) as [[cid cg]|]; cbn.
    + discriminate.
    + intros H k. injection H as _ <-. left. reflexivity.
Qed.

Lemma resolve_cache_grows_witness :
  exists w',
    resolve (sample_host [ubuntu_desc]) (Some sample_iface) false sample_world = Done (true, w') /\
    (w_cache w' !! "0123456789ab" = w_cache sample_world !! "0123456789ab" \/
     (w_cache sample_world !! "0123456789ab" = None /\ true = true /\
      "0123456789ab" = m_container_id (w_tinfo w'))).
Proof.
  eexists. split; [vm_compute; reflexivity|].
  eapply (resolve_cache_grows (sample_host [ubuntu_desc]) (Some sample_iface) false sample_world).
  vm_compute. reflexivity.
Defined.

(** X11: [resolve] keeps the thread's tid and cgroups, and when it returns
    true the thread's container id is the id matched from its cgroups. *)
Theorem resolve_thread_update h mi q w b w' :
  resolve h mi q w = Done (b, w') ->
  m_tid (w_tinfo w') = m_tid (w_tinfo w) /\ m_cgroups (w_tinfo w') = m_cgroups (w_tinfo w) /\
  (b = true -> exists cg,
     h_match h (m_cgroups (w_tinfo w)) CONTAINERD_CGROUP_LAYOUT = Some (m_container_id (w_tinfo w'), cg)).
Proof.
  destruct mi as [i|].
  - intros H.
    apply resolve_done in H as [(_ & -> & ->)|[(cid & cg & c & _ & Hp & ->)|(cid & cg & c & w1 & Hm & Hp & -> & Hw)]].
    + split; [reflexivity|]. split; [reflexivity|]. discriminate.
    + apply parse_containerd_done in Hp as (-> & _). cbn.
      split; [reflexivity|]. split; [reflexivity|]. discriminate.
    + apply parse_containerd_done in Hp as (-> & _ & _). cbn in Hw.
      destruct (w_cache w !! m_id c); subst w'; cbn;
        (split; [reflexivity|]; split; [reflexivity|]; intros _; exists cg; exact Hm).
  - unfold resolve. unfold_M. cbn -[parse_containerd].
    destruct (h_match h (m_cgroups (w_tinfo w)) CONTAINERD_CGROUP_LAYOUT) as [[cid cg]|]; cbn.
    + discriminate.
    + intros H. injection H as <- <-. split; [reflexivity|]. split; [reflexivity|]. discriminate.
Qed.

Lemma resolve_thread_update_witness :
  exists w',
    resolve (sample_host [ubuntu_desc]) (Some sample_iface) false sample_world = Done (true, w') /\
    m_tid (w_tinfo w') = m_tid (w_tinfo sample_world) /\
    m_cgroups (w_tinfo w') = m_cgroups (w_tinfo sample_world) /\
    (true = true -> exists cg,
       h_match (sample_host [ubuntu_desc]) (m_cgroups (w_tinfo sample_world)) CONTAINERD_CGROUP_LAYOUT
         = Some (m_container_id (w_tinfo w'), cg)).
Proof.
  eexists. split; [vm_compute; reflexivity|].
  eapply (resolve_thread_update (sample_host [ubuntu_desc]) (Some sample_iface) false sample_world).
  vm_compute. reflexivity.
Defined.

Lemma substr_after_prefix a v :
  (N.of_nat (String.length (a ++ v)) < npos)%N ->
  substr (a ++ v) (N.of_nat (String.length a)) npos = Some v.
Proof.
  intros Hlen. unfold substr. rewrite string_length_app in *.
  replace (N.of_nat (String.length a) <=? N.of_nat (String.length a + String.length v))%N
    with true by (symmetry; apply N.leb_le; lia).
  f_equal. rewrite Nnat.Nat2N.id.
  replace (N.to_nat (N.min npos (N.of_nat (String.length a + String.length v)
                                 - N.of_nat (String.length a))))
    with (String.length v) by lia.
  pose proof (substring_app_skip a v 0 (String.length v)) as E. rewrite Nat.add_0_r in E.
  rewrite E. apply substring_whole. lia.
Qed.

(** X12: when the constructor leaves [m_interface] non-null, its stub is
    non-null and it is bound to the host root followed by one of
    [CONTAINERD_SOCKETS], a path [stat] reports as a socket and whose
    unfiltered List call succeeded. *)
Theorem containerd_ctor_valid h i :
  containerd_ctor h = Some i ->
  is_ok i = true /\ h_stat h (ci_socket i) = Some S_IFSOCK /\
  st_ok (fst (h_daemon h (ci_socket i) [])) = true /\
  exists p, In p CONTAINERD_SOCKETS /\ ci_socket i = (h_host_root h ++ p)%string.
Proof.
  unfold containerd_ctor, containerd_ctor_step. cbn [fold_left CONTAINERD_SOCKETS String.eqb Ascii.eqb Bool.eqb].
  rewrite !containerd_interface_new_eq. unfold is_ok. cbn [ci_stub ci_socket].
  destruct (h_stat h (h_host_root h ++ "/run/containerd/runtime2/containerd.sock")) as [[]|] eqn:H2;
  destruct (h_stat h (h_host_root h ++ "/run/host-containerd/containerd.sock")) as [[]|] eqn:H1;
  intros Hi; try discriminate;
  repeat match type of Hi with
  | (if st_ok ?x then _ else _) = _ => destruct (st_ok x) eqn:Hok; [|discriminate]
  end;
  injection Hi as <-; cbn [ci_socket];
  (split; [reflexivity|]; split; [assumption|]; split; [assumption|]);
  eexists; (split; [|reflexivity]); cbn; auto.
Qed.

Lemma containerd_ctor_valid_witness :
  containerd_ctor first_socket_only_host = Some (mk_iface "/run/host-containerd/containerd.sock" true) /\
  is_ok (mk_iface "/run/host-containerd/containerd.sock" true) = true /\
  h_stat first_socket_only_host (ci_socket (mk_iface "/run/host-containerd/containerd.sock" true))
    = Some S_IFSOCK /\
  st_ok (fst (h_daemon first_socket_only_host
                (ci_socket (mk_iface "/run/host-containerd/containerd.sock" true)) [])) = true /\
  exists p, In p CONTAINERD_SOCKETS /\
    ci_socket (mk_iface "/run/host-containerd/containerd.sock" true)
      = (h_host_root first_socket_only_host ++ p)%string.
Proof.
  assert (H : containerd_ctor first_socket_only_host
              = Some (mk_iface "/run/host-containerd/containerd.sock" true))
    by (vm_compute; reflexivity).
  split; [exact H|]. apply containerd_ctor_valid. exact H.
Defined.

(** X13: when the second candidate is not a socket, [m_interface] is
    non-null exactly when the first candidate is a socket whose unfiltered
    List call succeeds, and it is then bound to that socket. *)
Theorem containerd_ctor_second_not_socket h i :
  h_stat h (h_host_root h ++ "/run/containerd/runtime2/containerd.sock") <> Some S_IFSOCK ->
  containerd_ctor h = Some i <->
  (h_stat h (h_host_root h ++ "/run/host-containerd/containerd.sock") = Some S_IFSOCK /\
   st_ok (fst (h_daemon h (h_host_root h ++ "/run/host-containerd/containerd.sock") [])) = true /\
   i = mk_iface (h_host_root h ++ "/run/host-containerd/containerd.sock") true).
Proof.
  intros H2. unfold containerd_ctor, containerd_ctor_step.
  cbn [fold_left CONTAINERD_SOCKETS String.eqb Ascii.eqb Bool.eqb].
  rewrite !containerd_interface_new_eq. unfold is_ok. cbn [ci_stub ci_socket].
  destruct (h_stat h (h_host_root h ++ "/run/containerd/runtime2/containerd.sock")) as [[]|];
    [contradiction|..];
  (destruct (h_stat h (h_host_root h ++ "/run/host-containerd/containerd.sock")) as [[]|];
   [destruct (st_ok _) eqn:Hok;
    [split; [intros Hi; injection Hi as <-; auto|intros (_ & _ & ->); reflexivity]
    |split; [discriminate|intros (_ & Hf & _); discriminate]]
   |..]; split; try discriminate; intros (Hf & _); discriminate).
Qed.

Lemma containerd_ctor_second_not_socket_witness :
  h_stat first_socket_only_host
    (h_host_root first_socket_only_host ++ "/run/containerd/runtime2/containerd.sock") <> Some S_IFSOCK /\
  (containerd_ctor first_socket_only_host = Some (mk_iface "/run/host-containerd/containerd.sock" true) <->
   (h_stat first_socket_only_host
      (h_host_root first_socket_only_host ++ "/run/host-containerd/containerd.sock") = Some S_IFSOCK /\
    st_ok (fst (h_daemon first_socket_only_host
                  (h_host_root first_socket_only_host ++ "/run/host-containerd/containerd.sock") [])) = true /\
    mk_iface "/run/host-containerd/containerd.sock" true
      = mk_iface (h_host_root first_socket_only_host ++ "/run/host-containerd/containerd.sock") true)).
Proof.
  assert (H : h_stat first_socket_only_host
                (h_host_root first_socket_only_host ++ "/run/containerd/runtime2/containerd.sock")
              <> Some S_IFSOCK) by (vm_compute; discriminate).
  split; [exact H|]. apply containerd_ctor_second_not_socket. exact H.
Defined.

Lemma scan_options_readonly_witness :
  scan_options (map JString mount_options_sample) false "" = Some (true, "755") /\
  true = false || existsb (String.eqb "ro") mount_options_sample.
Proof.
  assert (H : scan_options (map JString mount_options_sample) false "" = Some (true, "755"))
    by (vm_compute; reflexivity).
  split; [exact H|]. apply (scan_options_readonly mount_options_sample false "" true "755" H).
Defined.

Lemma parse_mounts_shared_propagation_witness :
  parse_mounts mode_in_mode_spec = Some [mk_mount "/host" "/mnt" "" true "rprivate"] /\
  Forall (fun mi => m_propagation mi = "rprivate") [mk_mount "/host" "/mnt" "" true "rprivate"].
Proof.
  assert (H : parse_mounts mode_in_mode_spec = Some [mk_mount "/host" "/mnt" "" true "rprivate"])
    by (vm_compute; reflexivity).
  split; [exact H|].
  apply (parse_mounts_shared_propagation mode_in_mode_spec _
           (JObject [("rootfsPropagation", JString "rprivate")]) "rprivate");
    [vm_compute; reflexivity|vm_compute; reflexivity|exact H].
Defined.

(** X16: on string options of representable size the options loop never
    throws, and the mode it ends with is either the initial one or the text
    of some option after its leading ["mode="]. *)
Theorem scan_options_strings opts r m :
  Forall (fun o => (N.of_nat (String.length o) < npos)%N) opts ->
  exists r' m', scan_options (map JString opts) r m = Some (r', m') /\
    (m' = m \/ exists o, In o opts /\ o = ("mode=" ++ m')%string).
Proof.
  revert r m. induction opts as [|o opts IH]; intros r m Hall.
  - exists r, m. split; [reflexivity|]. left; reflexivity.
  - apply Forall_cons in Hall as [Ho Hall].
    cbn [map scan_options asString mbind option_bind].
    destruct (String.eqb o "ro").
    + destruct (IH true m Hall) as (r' & m' & Hs & Hm).
      exists r', m'. split; [exact Hs|].
      destruct Hm as [->|(o' & Hin & ->)]; [left; reflexivity|right; exists ("mode=" ++ m')%string; cbn; auto].
    + destruct (rfind o "mode=" =? 0)%N eqn:Hr.
      * destruct (rfind_zero_prefix _ _ Hr) as [v ->].
        pose proof (substr_after_prefix "mode=" v Ho) as Hsub.
        change (N.of_nat (String.length "mode=")) with 5%N in Hsub.
        rewrite Hsub. cbn [mbind option_bind].
        destruct (IH r v Hall) as (r' & m' & Hs & Hm).
        exists r', m'. split; [exact Hs|]. right.
        destruct Hm as [->|(o' & Hin & ->)]; [exists ("mode=" ++ v)%string; cbn; auto|].
        exists ("mode=" ++ m')%string. cbn. auto.
      * destruct (IH r m Hall) as (r' & m' & Hs & Hm).
        exists r', m'. split; [exact Hs|].
        destruct Hm as [->|(o' & Hin & ->)]; [left; reflexivity|right; exists ("mode=" ++ m')%string; cbn; auto].
Qed.

Lemma scan_options_strings_witness :
  exists r' m', scan_options (map JString mount_options_sample) false "" = Some (r', m') /\
    (m' = "" \/ exists o, In o mount_options_sample /\ o = ("mode=" ++ m')%string).
Proof.
  apply scan_options_strings.
  repeat constructor; vm_compute; reflexivity.
Defined.

(** X17: a spec whose top-level JSON value is neither an object nor null
    makes [spec["mounts"]] throw [Json::LogicError]: [parse_containerd]
    does not return. *)
Theorem parse_containerd_spec_not_object h i c cid w st d :
  is_ok i = true ->
  h_daemon h (ci_socket i) ["id~=" ++ cid] = (st, [d]) -> st_ok st = true ->
  is_Some (parse_image (d_image d)) ->
  h_json_parse h (d_spec d) <> JNull ->
  (forall ms, h_json_parse h (d_spec d) <> JObject ms) ->
  parse_containerd h (Some i) c cid w = Crash "Json::LogicError".
Proof.
  unfold is_ok. intros Hok Hd Hst [[[im re] tg] Hi] Hn Ho.
  unfold parse_containerd, list_container_resp. unfold_M. cbn.
  rewrite Hok. cbn. rewrite Hd. cbn. rewrite Hst. cbn. rewrite Hi. cbn.
  unfold parse_mounts. destruct (h_json_parse h (d_spec d)) as [| | | | |ms];
    [contradiction|reflexivity|reflexivity|reflexivity|reflexivity|].
  exfalso. apply (Ho ms). reflexivity.
Qed.

Lemma parse_containerd_spec_not_object_witness :
  parse_containerd array_spec_host (Some sample_iface) sinsp_container_info_default "0123456789ab"
    sample_world = Crash "Json::LogicError".
Proof.
  apply (parse_containerd_spec_not_object _ _ _ _ _ status_ok ubuntu_desc).
  - reflexivity.
  - vm_compute. reflexivity.
  - reflexivity.
  - vm_compute. eexists. reflexivity.
  - vm_compute. discriminate.
  - intros ms. vm_compute. discriminate.
Defined.

(** X18: on success, [parse_containerd] adds to the record it is given: the
    spec's mounts and env are appended to the record's, the descriptor's
    labels are inserted into the record's labels, and its name, lookup
    state and limits are left as they were. *)
Theorem parse_containerd_merges h i c cid w c' w' :
  parse_containerd h (Some i) c cid w = Done ((true, c'), w') ->
  exists st d mounts env,
    h_daemon h (ci_socket i) ["id~=" ++ cid] = (st, [d]) /\
    parse_mounts (h_json_parse h (d_spec d)) = Some mounts /\
    parse_env (h_json_parse h (d_spec d)) = Some env /\
    m_mounts c' = (m_mounts c ++ mounts)%list /\ m_env c' = (m_env c ++ env)%list /\
    m_labels c' = copy_labels (h_label_max_length h) (d_labels d) (m_labels c) /\
    m_name c' = m_name c /\ m_lookup c' = m_lookup c /\ limits_of c' = limits_of c.
Proof.
  intros H.
  apply parse_containerd_true in H as (st & d & im & re & tg & ms & es & Hd & _ & _ & Hms & Hes & ->).
  exists st, d, ms, es. cbn. repeat split; assumption.
Qed.

Lemma parse_containerd_merges_witness :
  exists c' w',
    parse_containerd (sample_host [ubuntu_desc]) (Some sample_iface) annotated_record
      "0123456789ab" sample_world = Done ((true, c'), w') /\
    exists st d mounts env,
    h_daemon (sample_host [ubuntu_desc]) (ci_socket sample_iface) ["id~=" ++ "0123456789ab"]
      = (st, [d]) /\
    parse_mounts (h_json_parse (sample_host [ubuntu_desc]) (d_spec d)) = Some mounts /\
    parse_env (h_json_parse (sample_host [ubuntu_desc]) (d_spec d)) = Some env /\
    m_mounts c' = (m_mounts annotated_record ++ mounts)%list /\
    m_env c' = (m_env annotated_record ++ env)%list /\
    m_labels c' = copy_labels (h_label_max_length (sample_host [ubuntu_desc])) (d_labels d)
                    (m_labels annotated_record) /\
    m_name c' = m_name annotated_record /\ m_lookup c' = m_lookup annotated_record /\
    limits_of c' = limits_of annotated_record.
Proof.
  do 2 eexists. split; [vm_compute; reflexivity|].
  eapply (parse_containerd_merges (sample_host [ubuntu_desc]) sample_iface annotated_record
            "0123456789ab" sample_world).
  vm_compute. reflexivity.
Defined.
